(** * Copier configuration tooling: pattern tester and config validator

    A shallow embedding of two command-line scripts of the repository:

    - [test_patterns.py], the pattern tester: classifies a file path as
      excluded, matched (with the names of the matching rules) or skipped,
      against the rule table [PATTERNS] and the exclusion list [EXCLUSIONS];
    - [examples-copier/scripts/validate-config-detailed.py], the config
      validator: walks a parsed YAML document and accumulates issues and
      warnings.

    A Python text is kept as a [string], the bytes of its UTF-8 encoding.
    The patterns of the pattern tester are ASCII; the pieces of the Python
    standard library it calls ([re], [fnmatch], [str.startswith]) are
    modelled by the modules [Regex] and [Glob] below, each with an
    executable matcher and a declarative semantics proved equivalent to it.
    What the validator takes from the interpreter and that depends on the
    characters behind the bytes, or on the whole of [re], is an interface,
    [PyRuntime]. *)

From Stdlib Require Import String Ascii List Bool Arith Lia ZArith.
From Stdlib Require Import DecimalString.
From Stdlib Require Import Floats.PrimFloat.
Import ListNotations.
Local Open Scope string_scope.
Local Open Scope list_scope.

(** ** Text helpers *)

Definition chars (s : string) : list ascii := list_ascii_of_string s.

(** Decimal rendering of a natural number, as [str(n)] does. *)
Definition nat_to_string (n : nat) : string :=
  NilEmpty.string_of_uint (Nat.to_uint n).

Definition newline : ascii := "010"%char.

Definition in_range (lo hi c : ascii) : bool :=
  Nat.leb (nat_of_ascii lo) (nat_of_ascii c)
  && Nat.leb (nat_of_ascii c) (nat_of_ascii hi).

Definition is_digit (c : ascii) : bool := in_range "0" "9" c.

Definition is_letter (c : ascii) : bool :=
  in_range "a" "z" c || in_range "A" "Z" c.

(** The class [\w] on ASCII text: letters, digits and the underscore. *)
Definition is_word (c : ascii) : bool :=
  is_letter c || is_digit c || Ascii.eqb c "_".

(** [str.startswith]. *)
Fixpoint starts_with (s p : list ascii) : bool :=
  match p, s with
  | [], _ => true
  | c :: p', d :: s' => Ascii.eqb c d && starts_with s' p'
  | _ :: _, [] => false
  end.

(** ** Regular expressions: the fragment of [re] the scripts use *)

Module Regex.

Inductive regex : Type :=
| Eps
| Lit (c : ascii)
| AnyChar                      (* [.]: any character but a newline *)
| WordChar                     (* [\w] *)
| Bol                          (* [^] *)
| Eol                          (* [$] *)
| Cat (r1 r2 : regex)
| Alt (r1 r2 : regex)
| Star (r : regex)
| Group (name : option string) (r : regex).

Definition Plus (r : regex) : regex := Cat r (Star r).
Definition Opt (r : regex) : regex := Alt r Eps.

(** *** Declarative semantics

    [Matches s r i j]: the expression [r] matches the slice of [s] from
    position [i] to position [j]. *)

Definition at_eol (s : list ascii) (i : nat) : bool :=
  Nat.eqb i (length s)
  || (Nat.eqb (S i) (length s)
      && match nth_error s i with
         | Some c => Ascii.eqb c newline
         | None => false
         end).

Inductive Matches (s : list ascii) : regex -> nat -> nat -> Prop :=
| MEps : forall i, Matches s Eps i i
| MLit : forall c i, nth_error s i = Some c -> Matches s (Lit c) i (S i)
| MAny : forall c i,
    nth_error s i = Some c -> Ascii.eqb c newline = false ->
    Matches s AnyChar i (S i)
| MWord : forall c i,
    nth_error s i = Some c -> is_word c = true -> Matches s WordChar i (S i)
| MBol : Matches s Bol 0 0
| MEol : forall i, at_eol s i = true -> Matches s Eol i i
| MCat : forall r1 r2 i j k,
    Matches s r1 i j -> Matches s r2 j k -> Matches s (Cat r1 r2) i k
| MAltL : forall r1 r2 i j, Matches s r1 i j -> Matches s (Alt r1 r2) i j
| MAltR : forall r1 r2 i j, Matches s r2 i j -> Matches s (Alt r1 r2) i j
| MStar0 : forall r i, Matches s (Star r) i i
| MStarS : forall r i j k,
    Matches s r i j -> Matches s (Star r) j k -> Matches s (Star r) i k
| MGroup : forall n r i j, Matches s r i j -> Matches s (Group n r) i j.

(** *** Executable matcher: the end positions reachable from [i] *)

Definition one_char (p : ascii -> bool) (s : list ascii) (i : nat) : list nat :=
  match nth_error s i with
  | Some c => if p c then [S i] else []
  | None => []
  end.

Fixpoint star_ends (step : nat -> list nat) (fuel i : nat) : list nat :=
  match fuel with
  | 0 => [i]
  | S f =>
      i :: flat_map (star_ends step f) (filter (fun j => Nat.ltb i j) (step i))
  end.

Fixpoint ends (s : list ascii) (r : regex) (i : nat) : list nat :=
  match r with
  | Eps => [i]
  | Lit c => one_char (Ascii.eqb c) s i
  | AnyChar => one_char (fun c => negb (Ascii.eqb c newline)) s i
  | WordChar => one_char is_word s i
  | Bol => if Nat.eqb i 0 then [i] else []
  | Eol => if at_eol s i then [i] else []
  | Cat r1 r2 => flat_map (ends s r2) (ends s r1 i)
  | Alt r1 r2 => ends s r1 i ++ ends s r2 i
  | Star r' => star_ends (ends s r') (S (length s)) i
  | Group _ r' => ends s r' i
  end.

Definition nonempty {A : Type} (l : list A) : bool :=
  match l with [] => false | _ :: _ => true end.

(** [re.match]: a match that starts at position 0. *)
Definition match_at_start (r : regex) (s : list ascii) : bool :=
  nonempty (ends s r 0).

(** [re.search]: a match that starts at some position of the text. *)
Definition search_from (r : regex) (s : list ascii) : bool :=
  existsb (fun i => nonempty (ends s r i)) (seq 0 (S (length s))).

(** *** Compiling a pattern string

    A recursive-descent reading of the pattern, for the syntax the scripts
    use: literals, [.], [^], [$], escaped punctuation, [\w], the postfix
    operators [*], [+], [?], alternation, plain groups and named groups
    [(?P<name>...)].  A pattern with any other construct (character sets,
    counted repetition, lazy operators, look-around, flags, letter or digit
    escapes other than [\w]) is reported as [Unsupported]: the model says
    nothing about it. *)

Inductive compiled : Type :=
| Compiled (r : regex)
| ReError (msg : string)       (* [re.error], with its text *)
| Unsupported.

Inductive presult : Type :=
| POk (r : regex) (names : list string) (pos : nat) (rest : list ascii)
| PErr (msg : string) (pos : nat)
| PUnsup.

Definition is_postfix (c : ascii) : bool :=
  Ascii.eqb c "*" || Ascii.eqb c "+" || Ascii.eqb c "?".

Definition is_anchor (r : regex) : bool :=
  match r with Bol | Eol => true | _ => false end.

Definition apply_postfix (q : ascii) (r : regex) : regex :=
  if Ascii.eqb q "*" then Star r
  else if Ascii.eqb q "+" then Plus r
  else Opt r.

Fixpoint take_word (l : list ascii) : list ascii * list ascii :=
  match l with
  | c :: l' =>
      if is_word c then let (w, rest) := take_word l' in (c :: w, rest)
      else ([], l)
  | [] => ([], [])
  end.

Definition valid_group_name (w : list ascii) : bool :=
  match w with
  | c :: _ => negb (is_digit c)
  | [] => false
  end.

Definition close_group (name : option string) (open_pos : nat) (res : presult)
  : presult :=
  match res with
  | POk r names p (c :: rest) =>
      if Ascii.eqb c ")" then POk (Group name r) names (S p) rest
      else PErr "missing ), unterminated subpattern" open_pos
  | POk _ _ _ [] => PErr "missing ), unterminated subpattern" open_pos
  | other => other
  end.

Fixpoint parse_alt (fuel : nat) (names : list string) (p : nat)
  (l : list ascii) {struct fuel} : presult :=
  match fuel with
  | 0 => PUnsup
  | S f =>
      match parse_seq f names p l with
      | POk r1 names1 p1 (c :: rest) =>
          if Ascii.eqb c "|" then
            match parse_alt f names1 (S p1) rest with
            | POk r2 names2 p2 rest2 => POk (Alt r1 r2) names2 p2 rest2
            | other => other
            end
          else POk r1 names1 p1 (c :: rest)
      | other => other
      end
  end

with parse_seq (fuel : nat) (names : list string) (p : nat)
  (l : list ascii) {struct fuel} : presult :=
  match fuel with
  | 0 => PUnsup
  | S f =>
      match l with
      | [] => POk Eps names p l
      | c :: _ =>
          if Ascii.eqb c "|" || Ascii.eqb c ")" then POk Eps names p l
          else
            match parse_atom f names p l with
            | POk a names1 p1 rest1 =>
                let item :=
                  match rest1 with
                  | q :: rest2 =>
                      if is_postfix q then
                        if is_anchor a then PErr "nothing to repeat" p1
                        else
                          match rest2 with
                          | q2 :: _ =>
                              if is_postfix q2 || Ascii.eqb q2 "{" then PUnsup
                              else POk (apply_postfix q a) names1 (S p1) rest2
                          | [] => POk (apply_postfix q a) names1 (S p1) rest2
                          end
                      else if Ascii.eqb q "{" then PUnsup
                      else POk a names1 p1 rest1
                  | [] => POk a names1 p1 rest1
                  end in
                match item with
                | POk r names2 p2 rest2 =>
                    match parse_seq f names2 p2 rest2 with
                    | POk tail names3 p3 rest3 =>
                        POk (Cat r tail) names3 p3 rest3
                    | other => other
                    end
                | other => other
                end
            | other => other
            end
      end
  end

with parse_atom (fuel : nat) (names : list string) (p : nat)
  (l : list ascii) {struct fuel} : presult :=
  match fuel with
  | 0 => PUnsup
  | S f =>
      match l with
      | [] => PUnsup
      | c :: rest =>
          if Ascii.eqb c "." then POk AnyChar names (S p) rest
          else if Ascii.eqb c "^" then POk Bol names (S p) rest
          else if Ascii.eqb c "$" then POk Eol names (S p) rest
          else if is_postfix c then PErr "nothing to repeat" p
          else if Ascii.eqb c "[" || Ascii.eqb c "{" then PUnsup
          else if Ascii.eqb c "\" then
            match rest with
            | e :: rest' =>
                if Ascii.eqb e "w" then POk WordChar names (p + 2) rest'
                else if is_letter e || is_digit e then PUnsup
                else POk (Lit e) names (p + 2) rest'
            | [] => PUnsup
            end
          else if Ascii.eqb c "(" then
            match rest with
            | "?"%char :: "P"%char :: "<"%char :: rest' =>
                let (w, after) := take_word rest' in
                match after with
                | ">"%char :: body =>
                    let name := string_of_list_ascii w in
                    if valid_group_name w
                       && negb (existsb (String.eqb name) names)
                    then close_group (Some name) p
                           (parse_alt f (name :: names)
                              (p + 4 + length w + 1) body)
                    else PUnsup
                | _ => PUnsup
                end
            | "?"%char :: _ => PUnsup
            | _ => close_group None p (parse_alt f names (S p) rest)
            end
          else POk (Lit c) names (S p) rest
      end
  end.

Definition has_newline (l : list ascii) : bool :=
  existsb (Ascii.eqb newline) l.

Definition at_position (msg : string) (pos : nat) : string :=
  msg ++ " at position " ++ nat_to_string pos.

(** [re.compile]. *)
Definition compile (pattern : string) : compiled :=
  let l := chars pattern in
  if has_newline l then Unsupported
  else
    match parse_alt (4 * length l + 4) [] 0 l with
    | POk r _ _ [] => Compiled r
    | POk _ _ p (_ :: _) => ReError (at_position "unbalanced parenthesis" p)
    | PErr msg pos => ReError (at_position msg pos)
    | PUnsup => Unsupported
    end.

(** [re.match(pattern, text) is not None] and
    [re.search(pattern, text) is not None]; [None] when the pattern does not
    compile (Python raises [re.error]) or is outside the fragment. *)
Definition re_match (pattern text : string) : option bool :=
  match compile pattern with
  | Compiled r => Some (match_at_start r (chars text))
  | _ => None
  end.

Definition re_search (pattern text : string) : option bool :=
  match compile pattern with
  | Compiled r => Some (search_from r (chars text))
  | _ => None
  end.

End Regex.

(** ** Shell-style wildcards: the fragment of [fnmatch] the scripts use *)

Module Glob.

(** [fnmatch.translate] reads the pattern left to right: [*] is any run of
    characters, [?] is any one character, anything else stands for itself.
    A pattern with a bracket expression is outside the fragment.  The case
    normalisation of [fnmatch] is the identity on POSIX systems.  A
    character is a byte here: [?] is read as in [fnmatch] on names of ASCII
    characters. *)

Inductive token : Type :=
| TStar
| TAny
| TLit (c : ascii).

Fixpoint parse_chars (l : list ascii) : option (list token) :=
  match l with
  | [] => Some []
  | c :: l' =>
      if Ascii.eqb c "[" then None
      else
        match parse_chars l' with
        | Some ts =>
            Some ((if Ascii.eqb c "*" then TStar
                   else if Ascii.eqb c "?" then TAny
                   else TLit c) :: ts)
        | None => None
        end
  end.

Definition parse (pattern : string) : option (list token) :=
  parse_chars (chars pattern).

(** Declarative semantics: the whole text is described by the tokens. *)
Inductive GlobMatches : list token -> list ascii -> Prop :=
| GNil : GlobMatches [] []
| GLit : forall c ts s, GlobMatches ts s -> GlobMatches (TLit c :: ts) (c :: s)
| GAny : forall c ts s, GlobMatches ts s -> GlobMatches (TAny :: ts) (c :: s)
| GStar : forall ts s1 s2,
    GlobMatches ts s2 -> GlobMatches (TStar :: ts) (s1 ++ s2).

(** Executable matcher. *)
Fixpoint glob_match (ts : list token) (s : list ascii) : bool :=
  match ts with
  | [] => match s with [] => true | _ :: _ => false end
  | TLit c :: ts' =>
      match s with
      | d :: s' => Ascii.eqb c d && glob_match ts' s'
      | [] => false
      end
  | TAny :: ts' =>
      match s with
      | _ :: s' => glob_match ts' s'
      | [] => false
      end
  | TStar :: ts' =>
      (fix skip (t : list ascii) : bool :=
         glob_match ts' t
         || match t with
            | [] => false
            | _ :: t' => skip t'
            end) s
  end.

(** [fnmatch.fnmatch(name, pat)]; [None] outside the fragment. *)
Definition fnmatch (name pat : string) : option bool :=
  match parse pat with
  | Some ts => Some (glob_match ts (chars name))
  | None => None
  end.

End Glob.

(** ** The pattern tester, [test_patterns.py] *)

Module PatternTester.

Definition TEST_FILES : list string :=
  [ "mflix/client/src/App.tsx";
    "mflix/client/src/components/Header.tsx";
    "mflix/client/package.json";
    "mflix/client/.gitignore";
    "mflix/client/README.md";
    "mflix/server/java-spring/src/main/java/Main.java";
    "mflix/server/java-spring/pom.xml";
    "mflix/server/java-spring/.env";
    "mflix/server/js-express/src/index.js";
    "mflix/server/js-express/package.json";
    "mflix/server/python-fastapi/main.py";
    "mflix/server/python-fastapi/requirements.txt";
    "mflix/README-JAVA-SPRING.md";
    "mflix/README-JAVASCRIPT-EXPRESS.md";
    "mflix/README-PYTHON-FASTAPI.md";
    "mflix/.gitignore-java";
    "mflix/.gitignore-js";
    "mflix/.gitignore-python";
    "mflix/docker-compose.yml";
    "mflix/package.json";
    "mflix/README.md";
    "other/file.txt" ].

(** A rule of the table: its name, then the pattern type and the pattern. *)
Definition rule : Type := (string * (string * string))%type.

(** The dictionary [PATTERNS], in insertion order (the keys are distinct). *)
Definition PATTERNS : list rule :=
  [ ("mflix-client-to-java", ("prefix", "mflix/client/"));
    ("java-server", ("regex", "^mflix/server/java-spring/(?P<file>.+)$"));
    ("mflix-java-readme", ("glob", "mflix/README-JAVA-SPRING.md"));
    ("mflix-java-gitignore", ("glob", "mflix/.gitignore-java"));
    ("mflix-client-to-js", ("prefix", "mflix/client/"));
    ("mflix-express-server",
       ("regex", "^mflix/server/js-express/(?P<file>.+)$"));
    ("mflix-js-readme", ("glob", "mflix/README-JAVASCRIPT-EXPRESS.md"));
    ("mflix-js-gitignore", ("glob", "mflix/.gitignore-js"));
    ("mflix-client-to-python", ("prefix", "mflix/client/"));
    ("mflix-python-server",
       ("regex", "^mflix/server/python-fastapi/(?P<file>.+)$"));
    ("mflix-python-readme", ("glob", "mflix/README-PYTHON-FASTAPI.md"));
    ("mflix-python-gitignore", ("glob", "mflix/.gitignore-python")) ].

Definition EXCLUSIONS : list string :=
  [ "\.gitignore$";
    "README\.md$";
    "\.env$" ].

(** The functions below take the two tables as arguments; the script's own
    functions are their instances at [EXCLUSIONS] and [PATTERNS].  A result
    of [None] stands for a run that ends in [re.error] (or leaves the
    modelled fragment of [re] and [fnmatch]). *)

(** The loop of [is_excluded]: the first exclusion found in the path wins. *)
Fixpoint is_excluded_in (exclusions : list string) (file_path : string)
  : option bool :=
  match exclusions with
  | [] => Some false
  | pattern :: rest =>
      match Regex.re_search pattern file_path with
      | Some true => Some true
      | Some false => is_excluded_in rest file_path
      | None => None
      end
  end.

Definition is_excluded (file_path : string) : option bool :=
  is_excluded_in EXCLUSIONS file_path.

Definition test_prefix (file_path pattern : string) : bool :=
  starts_with (chars file_path) (chars pattern).

Definition test_regex (file_path pattern : string) : option bool :=
  Regex.re_match pattern file_path.

Definition test_glob (file_path pattern : string) : option bool :=
  Glob.fnmatch file_path pattern.

(** The [if]/[elif] chain of the loop body: [matched] for one rule. *)
Definition rule_matched (file_path pattern_type pattern : string)
  : option bool :=
  if String.eqb pattern_type "prefix" then
    Some (test_prefix file_path pattern)
  else if String.eqb pattern_type "regex" then test_regex file_path pattern
  else if String.eqb pattern_type "glob" then test_glob file_path pattern
  else Some false.

(** The loop over [PATTERNS.items()], with its accumulator. *)
Fixpoint match_rules (patterns : list rule) (file_path : string)
  (matching_rules : list string) : option (list string) :=
  match patterns with
  | [] => Some matching_rules
  | (rule_name, (pattern_type, pattern)) :: rest =>
      match rule_matched file_path pattern_type pattern with
      | Some matched =>
          match_rules rest file_path
            (if matched then matching_rules ++ [rule_name]
             else matching_rules)
      | None => None
      end
  end.

Definition test_file_in (exclusions : list string) (patterns : list rule)
  (file_path : string) : option (string * list string) :=
  match is_excluded_in exclusions file_path with
  | None => None
  | Some true => Some ("excluded", [])
  | Some false =>
      match match_rules patterns file_path [] with
      | None => None
      | Some matching_rules =>
          match matching_rules with
          | _ :: _ => Some ("matched", matching_rules)
          | [] => Some ("skipped", [])
          end
      end
  end.

Definition test_file (file_path : string) : option (string * list string) :=
  test_file_in EXCLUSIONS PATTERNS file_path.

(** The counters of [main]: how many files of each class, and the files
    that no rule matched, in the order they came. *)
Record tally : Type := mkTally {
  matched_count : nat;
  skipped_count : nat;
  excluded_count : nat;
  skipped_files : list string
}.

(** The loop of [main] over the files, without its printing. *)
Fixpoint count_files (files : list string) (t : tally) : option tally :=
  match files with
  | [] => Some t
  | file_path :: rest =>
      match test_file file_path with
      | None => None
      | Some (status, _) =>
          count_files rest
            (if String.eqb status "excluded" then
               mkTally (matched_count t) (skipped_count t)
                 (S (excluded_count t)) (skipped_files t)
             else if String.eqb status "matched" then
               mkTally (S (matched_count t)) (skipped_count t)
                 (excluded_count t) (skipped_files t)
             else
               mkTally (matched_count t) (S (skipped_count t))
                 (excluded_count t) (skipped_files t ++ [file_path]))
      end
  end.

End PatternTester.

(** ** The config validator, [validate-config-detailed.py] *)

Module Validator.

(** *** Parsed YAML documents

    What [yaml.safe_load] returns, as far as the validator can tell values
    apart: scalars, lists and dictionaries.  A dictionary is the list of its
    entries in document order. *)

#[warnings="-register-all"]
Inductive value : Type :=
| VNone
| VBool (b : bool)
| VInt (n : Z)
| VFloat (x : float)
| VStr (s : string)
| VList (items : list value)
| VDict (entries : list (value * value)).

(** Truth value of an object, as [not x] and [if x] see it. *)
Definition truthy (v : value) : bool :=
  match v with
  | VNone => false
  | VBool b => b
  | VInt n => negb (Z.eqb n 0)
  | VFloat x => negb (PrimFloat.eqb x PrimFloat.zero)
  | VStr s => negb (String.eqb s "")
  | VList items => match items with [] => false | _ :: _ => true end
  | VDict entries => match entries with [] => false | _ :: _ => true end
  end.

(** [v == s] for a text literal [s]: only a text value can be equal to it. *)
Definition is_str (v : value) (s : string) : bool :=
  match v with
  | VStr t => String.eqb t s
  | _ => false
  end.

(** [d[key]] for a text key. *)
Fixpoint dict_get (key : string) (entries : list (value * value))
  : option value :=
  match entries with
  | [] => None
  | (k, v) :: rest => if is_str k key then Some v else dict_get key rest
  end.

(** [key in d]. *)
Definition dict_has (key : string) (entries : list (value * value)) : bool :=
  match dict_get key entries with
  | Some _ => true
  | None => false
  end.

(** [d.get(key, default)]. *)
Definition get_or (key : string) (entries : list (value * value))
  (default : value) : value :=
  match dict_get key entries with
  | Some v => v
  | None => default
  end.

(** [isinstance(v, dict)]. *)
Definition is_dict (v : value) : bool :=
  match v with VDict _ => true | _ => false end.

(** *** What the script takes from the interpreter

    A text is kept as the bytes of its UTF-8 encoding.  What depends on the
    characters behind the bytes, or on the whole of a library, is taken from
    the interpreter:

    - [py_str v] is the text an f-string puts for [{v}];
    - [re_compile p] is how [re.compile(p)] ends: it returns, it raises
      [re.error] (with the text of the error), or it raises something else,
      as it does with [OverflowError] on [a{4294967296}];
    - [has_named_group s] is [bool(re.search(r'\(\?P<\w+>', s))]: the class
      [\w] of a text pattern knows the letters and digits of Unicode.  On
      a text of ASCII characters it is the search of [Regex];
    - [py_chars s] is the list of the characters of [s], each as a text, as
      a [for] loop over [s] gives them.  On a text of ASCII characters
      these are its bytes. *)

Inductive exn : Type :=
| TypeError
| AttributeError
| OverflowError
| RecursionError
| ValueError
| MemoryError.

Inductive compile_result : Type :=
| Compiles
| RaisesReError (e : string)
| RaisesOther (e : exn).

Definition is_ascii (c : ascii) : bool := Nat.ltb (nat_of_ascii c) 128.

(** The search for [\(\?P<\w+>] on a text of ASCII characters. *)
Definition ascii_named_group (s : string) : bool :=
  match Regex.re_search "\(\?P<\w+>" s with
  | Some found => found
  | None => false
  end.

Definition ascii_chars (s : string) : list string :=
  map (fun c => String c EmptyString) (chars s).

Class PyRuntime : Type := {
  py_str : value -> string;
  re_compile : string -> compile_result;
  has_named_group : string -> bool;
  py_chars : string -> list string;
  named_group_ascii :
    forall s,
      forallb is_ascii (chars s) = true ->
      has_named_group s = ascii_named_group s;
  py_chars_ascii :
    forall s,
      forallb is_ascii (chars s) = true -> py_chars s = ascii_chars s
}.

(** A runtime for running the model on examples: texts print as they are,
    integers in decimal, patterns are compiled by [Regex.compile] and
    searched as ASCII texts. *)
Definition sample_str (v : value) : string :=
  match v with
  | VNone => "None"
  | VBool true => "True"
  | VBool false => "False"
  | VInt n => NilEmpty.string_of_int (Z.to_int n)
  | VStr s => s
  | _ => "..."
  end.

Definition sample_compile (pattern : string) : compile_result :=
  match Regex.compile pattern with
  | Regex.ReError msg => RaisesReError msg
  | Regex.Compiled _ => Compiles
  | Regex.Unsupported =>
      (* a repetition count too large for [re] *)
      if String.eqb pattern "a{4294967296}" then RaisesOther OverflowError
      else Compiles
  end.

Definition SampleRuntime : PyRuntime :=
  {| py_str := sample_str;
     re_compile := sample_compile;
     has_named_group := ascii_named_group;
     py_chars := ascii_chars;
     named_group_ascii := fun s _ => eq_refl;
     py_chars_ascii := fun s _ => eq_refl |}.

(** *** The state of a run: the two accumulators and the console *)

Record state : Type := mkState {
  issues : list string;
  warnings : list string;
  console : list string
}.

Definition add_issue (msg : string) (st : state) : state :=
  mkState (issues st ++ [msg]) (warnings st) (console st).

Definition add_warning (msg : string) (st : state) : state :=
  mkState (issues st) (warnings st ++ [msg]) (console st).

(** [print(line)]. *)
Definition print (line : string) (st : state) : state :=
  mkState (issues st) (warnings st) (console st ++ [line]).

Definition print_all (lines : list string) (st : state) : state :=
  mkState (issues st) (warnings st) (console st ++ lines).

(** A step of the rule loop either goes on with a new state or raises. *)
Inductive result : Type :=
| Ok (st : state)
| Raise (e : exn) (st : state).

Definition bind (r : result) (k : state -> result) : result :=
  match r with
  | Ok st => k st
  | Raise e st => Raise e st
  end.

(** How a call of [validate_config] ends. *)
Inductive outcome : Type :=
| Returned (success : bool) (st : state)
| Raised (e : exn) (st : state).

Section WithRuntime.
Context {RT : PyRuntime}.

(** The elements a [for] loop (and [len]) sees in a value: the items of a
    list, the keys of a dictionary, the characters of a text; the other
    values are not iterable. *)
Definition elements (v : value) : option (list value) :=
  match v with
  | VList items => Some items
  | VDict entries => Some (map fst entries)
  | VStr s => Some (map VStr (py_chars s))
  | _ => None
  end.

Definition in_rule (rule_name : value) (detail : string) : string :=
  "Rule '" ++ py_str rule_name ++ "': " ++ detail.

Definition in_target (rule_name : value) (j : nat) (detail : string)
  : string :=
  "Rule '" ++ py_str rule_name ++ "', Target " ++ nat_to_string j ++ ": "
  ++ detail.

(** [has_regex_syntax], the search for [\(\?P<\w+>] in the pattern. *)
Definition has_regex_syntax (pattern_str : string) : bool :=
  has_named_group pattern_str.

(** The body of the loop over the targets of a rule. *)
Definition validate_target (rule_name : value) (j : nat) (target : value)
  (st : state) : state :=
  match target with
  | VDict t =>
      let st1 :=
        if dict_has "repo" t then st
        else add_issue (in_target rule_name j "Missing 'repo' field") st in
      let st2 :=
        if dict_has "branch" t then st1
        else add_warning
               (in_target rule_name j
                  "Missing 'branch' field (will use default)") st1 in
      let st3 :=
        if dict_has "path_transform" t then st2
        else add_warning
               (in_target rule_name j "Missing 'path_transform' field") st2 in
      match dict_get "commit_strategy" t with
      | Some (VDict strategy) =>
          let strategy_type := get_or "type" strategy VNone in
          if truthy strategy_type
             && negb (is_str strategy_type "direct"
                      || is_str strategy_type "pull_request")
          then add_issue
                 (in_target rule_name j
                    ("Invalid commit_strategy type '"
                     ++ py_str strategy_type ++ "'")) st3
          else st3
      | Some _ =>
          add_issue
            (in_target rule_name j "commit_strategy must be a dictionary") st3
      | None => st3
      end
  | _ => add_issue (in_target rule_name j "Must be a dictionary") st
  end.

Fixpoint validate_targets (rule_name : value) (j : nat)
  (targets : list value) (st : state) : state :=
  match targets with
  | [] => st
  | target :: rest =>
      validate_targets rule_name (S j) rest
        (validate_target rule_name j target st)
  end.

(** "Validate targets", to the end of the loop body. *)
Definition check_targets (rule_name : value)
  (rule : list (value * value)) (st : state) : state :=
  match get_or "targets" rule (VList []) with
  | VList targets =>
      let st1 :=
        match targets with
        | [] => add_warning (in_rule rule_name "No targets defined") st
        | _ :: _ => st
        end in
      print "   ✓ Rule validated" (validate_targets rule_name 1 targets st1)
  | _ => add_issue (in_rule rule_name "targets must be a list") st
  end.

(** The check of the pattern type. *)
Definition check_pattern_type (rule_name pattern_type : value) (st : state)
  : state :=
  if negb (truthy pattern_type) then
    add_issue (in_rule rule_name "Missing pattern type") st
  else if negb (is_str pattern_type "prefix" || is_str pattern_type "glob"
                || is_str pattern_type "regex") then
    add_issue
      (in_rule rule_name
         ("Invalid pattern type '" ++ py_str pattern_type
          ++ "' (must be prefix, glob, or regex)")) st
  else st.

(** The checks of a pattern string that is present.  The [try] around
    [re.compile] catches [re.error] only: any other exception ends the
    run. *)
Definition check_present_pattern (rule_name pattern_type : value)
  (pattern_str : string) (st : state) : result :=
  let st1 :=
    if is_str pattern_type "prefix" && has_regex_syntax pattern_str then
      add_warning
        (in_rule rule_name "Should use type: 'regex' instead of 'prefix'")
        (add_issue
           (in_rule rule_name
              "Pattern type is 'prefix' but pattern contains regex syntax '(?P<...>)'")
           st)
    else st in
  if is_str pattern_type "regex" then
    match re_compile pattern_str with
    | Compiles => Ok st1
    | RaisesReError e =>
        Ok (add_issue (in_rule rule_name ("Invalid regex pattern: " ++ e))
              st1)
    | RaisesOther e => Raise e st1
    end
  else Ok st1.

(** The check of the pattern string; [re.search] raises [TypeError] on a
    value that is not a text. *)
Definition check_pattern_str (rule_name pattern_type pattern_str : value)
  (st : state) : result :=
  if negb (truthy pattern_str) then
    Ok (add_issue (in_rule rule_name "Missing pattern string") st)
  else
    match pattern_str with
    | VStr s => check_present_pattern rule_name pattern_type s st
    | _ => Raise TypeError st
    end.

(** [rule.get('name', f'Rule {i}')]. *)
Definition rule_name_of (i : nat) (rule : list (value * value)) : value :=
  get_or "name" rule (VStr ("Rule " ++ nat_to_string i)).

(** The line printed at the top of the loop body. *)
Definition announce_rule (i : nat) (rule_name : value) (st : state) : state :=
  print ("🔍 Validating Rule " ++ nat_to_string i ++ ": "
         ++ py_str rule_name) st.

(** The body of the loop over the rules; [rule.get] raises
    [AttributeError] on a rule that is not a dictionary. *)
Definition validate_rule (i : nat) (rule : value) (st : state) : result :=
  match rule with
  | VDict r =>
      let rule_name := rule_name_of i r in
      let st0 := announce_rule i rule_name st in
      match dict_get "source_pattern" r with
      | None => Ok (add_issue (in_rule rule_name "Missing source_pattern") st0)
      | Some pattern =>
          if negb (dict_has "targets" r) then
            Ok (add_issue (in_rule rule_name "Missing targets") st0)
          else
            match pattern with
            | VDict p =>
                let pattern_type := get_or "type" p VNone in
                let pattern_str := get_or "pattern" p VNone in
                bind
                  (check_pattern_str rule_name pattern_type pattern_str
                     (check_pattern_type rule_name pattern_type st0))
                  (fun st1 => Ok (check_targets rule_name r st1))
            | _ =>
                Ok (add_issue
                      (in_rule rule_name "source_pattern must be a dictionary")
                      st0)
            end
      end
  | _ => Raise AttributeError st
  end.

Fixpoint validate_rules (i : nat) (rules : list value) (st : state)
  : result :=
  match rules with
  | [] => Ok st
  | rule :: rest => bind (validate_rule i rule st) (validate_rules (S i) rest)
  end.

(** "Print summary": the closing report and the value returned. *)
Definition summary (st : state) : outcome :=
  let st1 := print "" st in
  let st2 :=
    match issues st1 with
    | [] => st1
    | _ :: _ =>
        print_all
          (["❌ VALIDATION FAILED"; ""; "Issues found:"]
           ++ map (String.append "   ❌ ") (issues st1) ++ [""]) st1
    end in
  let st3 :=
    match warnings st2 with
    | [] => st2
    | _ :: _ =>
        print_all
          (["⚠️  Warnings:"]
           ++ map (String.append "   ⚠️  ") (warnings st2)
           ++ [""]) st2
    end in
  match issues st3, warnings st3 with
  | [], [] =>
      Returned true (print "✅ Configuration is valid with no issues!" st3)
  | [], _ :: _ =>
      Returned true (print "✅ Configuration is valid (with warnings)" st3)
  | _ :: _, _ => Returned false st3
  end.

(** What opening and parsing the file gave. *)
Inductive loaded : Type :=
| Parsed (config : value)
| YamlError (e : string)
| ReadError (e : string).

(** [validate_config], from the loaded document on.  [out] is what the
    console already shows when the call starts; the two accumulators start
    empty. *)
Definition validate_config_from (out : list string) (doc : loaded)
  : outcome :=
  let st := mkState [] [] out in
  match doc with
  | YamlError e =>
      Returned false (print_all ["❌ YAML Parsing Error:"; ("   " ++ e)%string] st)
  | ReadError e => Returned false (print ("❌ Error reading file: " ++ e) st)
  | Parsed config =>
      let st0 := print_all ["✅ YAML syntax is valid"; ""] st in
      match config with
      | VDict c =>
          let st1 :=
            if dict_has "source_repo" c then st0
            else add_issue "Missing required field: source_repo" st0 in
          let st2 :=
            if dict_has "copy_rules" c then st1
            else add_issue "Missing required field: copy_rules" st1 in
          match issues st2 with
          | _ :: _ =>
              Returned false
                (print_all
                   ("❌ Structural Issues:"
                    :: map (String.append "   - ") (issues st2)) st2)
          | [] =>
              let st3 :=
                print_all
                  [ "📋 Config Summary:";
                    ("   Source: " ++ py_str (get_or "source_repo" c VNone))%string;
                    ("   Branch: "
                     ++ py_str (get_or "source_branch" c (VStr "main")))%string
                  ] st2 in
              let copy_rules := get_or "copy_rules" c (VList []) in
              match elements copy_rules with
              | None => Raised TypeError st3
              | Some rules =>
                  let st4 :=
                    print_all
                      [ ("   Rules: " ++ nat_to_string (length rules))%string; "" ]
                      st3 in
                  match validate_rules 1 rules st4 with
                  | Ok st5 => summary st5
                  | Raise e st5 => Raised e st5
                  end
              end
          end
      | _ => Returned false (add_issue "Config must be a dictionary" st0)
      end
  end.

Definition validate_config (doc : loaded) : outcome :=
  validate_config_from [] doc.

(** The exit status of the process: that of [sys.exit], and 1 when the run
    ends in an exception nobody catches. *)
Definition exit_code (o : outcome) : Z :=
  match o with
  | Returned true _ => 0%Z
  | Returned false _ => 1%Z
  | Raised _ _ => 1%Z
  end.

Definition final_state (o : outcome) : state :=
  match o with
  | Returned _ st => st
  | Raised _ st => st
  end.

(** The script run as a program: [argv] is [sys.argv], [load] stands for
    opening the named file and parsing it. *)
Definition main (load : string -> loaded) (argv : list string)
  : Z * list string :=
  match argv with
  | [_; file_path] =>
      let o := validate_config (load file_path) in
      (exit_code o, console (final_state o))
  | _ => (1%Z, ["Usage: validate-config-detailed.py <config-file>"])
  end.

End WithRuntime.

End Validator.

(** ** The specification's reading of the pattern tester

    These definitions follow the words of the specification, not the code;
    the theorems below compare them with the functions of the script. *)

Module TesterSpec.
Import PatternTester.

(** Shell-style wildcards, read off the text of the pattern: [*] stands
    for any run of characters, [?] for any one character, and a character
    other than [*], [?] and [[] for itself; the pattern has to describe the
    whole text. *)
Definition glob_special (c : ascii) : bool :=
  Ascii.eqb c "*" || Ascii.eqb c "?" || Ascii.eqb c "[".

Inductive GlobText : list ascii -> list ascii -> Prop :=
| GTNil : GlobText [] []
| GTStar : forall p s1 s2,
    GlobText p s2 -> GlobText ("*"%char :: p) (s1 ++ s2)
| GTAny : forall p c s, GlobText p s -> GlobText ("?"%char :: p) (c :: s)
| GTChar : forall c p s,
    glob_special c = false -> GlobText p s -> GlobText (c :: p) (c :: s).

(** "A prefix rule matches if the path starts with the literal pattern
    string; a glob rule matches using shell-style wildcard semantics against
    the whole path; a regex rule matches if the pattern matches starting at
    the beginning of the path (not requiring anchoring at the end)." *)
Definition RuleMatches (file_path : string) (r : rule) : Prop :=
  let '(_, (pattern_type, pattern)) := r in
  (pattern_type = "prefix"
   /\ exists rest, chars file_path = chars pattern ++ rest)
  \/ (pattern_type = "glob"
      /\ GlobText (chars pattern) (chars file_path))
  \/ (pattern_type = "regex"
      /\ exists re j,
           Regex.compile pattern = Regex.Compiled re
           /\ Regex.Matches (chars file_path) re 0 j).

(** "Each exclusion is a regex, matched anywhere in the string." *)
Definition ExclusionMatches (file_path pattern : string) : Prop :=
  exists re i j,
    Regex.compile pattern = Regex.Compiled re
    /\ i <= length (chars file_path)
    /\ Regex.Matches (chars file_path) re i j.

(** The classification the specification gives for a list of matching rule
    names. *)
Definition classify (names : list string) : string * list string :=
  match names with
  | _ :: _ => ("matched", names)
  | [] => ("skipped", [])
  end.

(** The rule, run by the script, reports a match. *)
Definition rule_hit (file_path : string) (r : rule) : bool :=
  let '(_, (pattern_type, pattern)) := r in
  match rule_matched file_path pattern_type pattern with
  | Some matched => matched
  | None => false
  end.

(** The pattern of the rule is one the model of [re] and [fnmatch] reads. *)
Definition compiles (pattern : string) : bool :=
  match Regex.compile pattern with
  | Regex.Compiled _ => true
  | _ => false
  end.

Definition rule_readable (r : rule) : bool :=
  let '(_, (pattern_type, pattern)) := r in
  if String.eqb pattern_type "prefix" then true
  else if String.eqb pattern_type "regex" then compiles pattern
  else if String.eqb pattern_type "glob" then
    match Glob.parse pattern with Some _ => true | None => false end
  else true.

End TesterSpec.

(** ** Notions used to state the properties of the validator *)

Module ValidatorSpec.
Import Validator.

(** The state a loop step ends in, whether it raised or not. *)
Definition result_state (r : result) : state :=
  match r with
  | Ok st => st
  | Raise _ st => st
  end.

(** [st'] holds everything [st] holds, and maybe more at the end: nothing
    recorded or printed is ever taken back. *)
Definition grows (st st' : state) : Prop :=
  (exists l, issues st' = issues st ++ l)
  /\ (exists l, warnings st' = warnings st ++ l)
  /\ (exists l, console st' = console st ++ l).




(** The issues the check of the required top-level fields records. *)
Definition missing_fields (c : list (value * value)) : list string :=
  (if dict_has "source_repo" c then []
   else ["Missing required field: source_repo"])
  ++ (if dict_has "copy_rules" c then []
      else ["Missing required field: copy_rules"]).

(** What a call of [validate_config] returned, if it returned. *)
Definition returned (o : outcome) : option bool :=
  match o with
  | Returned success _ => Some success
  | Raised _ _ => None
  end.



(** The entries of a rule that has a name and a [source_pattern], and no
    [targets] key. *)
Definition rule_without_targets (pattern_type : string) (pattern : value)
  : list (value * value) :=
  [ (VStr "name", VStr "orphan");
    (VStr "source_pattern",
       VDict [ (VStr "type", VStr pattern_type);
               (VStr "pattern", pattern) ]) ].


Definition sample_config (copy_rules : value) : value :=
  VDict [ (VStr "source_repo", VStr "org/source");
          (VStr "copy_rules", copy_rules) ].

End ValidatorSpec.

(** ** What the validator asks of a configuration

    The conditions under which the checks of the script record no issue,
    and those under which they do not raise, read off the tests of the
    loop bodies. *)

Module ValidatorChecks.
Import Validator.

Section WithRuntime.
Context {RT : PyRuntime}.

(** [isinstance(v, str)]. *)
Definition is_text (v : value) : bool :=
  match v with VStr _ => true | _ => false end.










End WithRuntime.

End ValidatorChecks.

(** ** The report of the pattern tester, [main] of [test_patterns.py] *)

Module TesterMain.
Import PatternTester.

(** ["=" * 60]. *)
Definition rule_of_60 : string :=
  string_of_list_ascii (repeat "="%char 60).

(** The lines printed for one file, and the counters after it. *)
Definition report_file (file_path status : string) (rules : list string)
  (t : tally) : tally * list string :=
  if String.eqb status "excluded" then
    (mkTally (matched_count t) (skipped_count t) (S (excluded_count t))
       (skipped_files t),
     [ String.append "🟡 EXCLUDED  " file_path;
       "             └─ Matches exclusion pattern (by design)";
       "" ])
  else if String.eqb status "matched" then
    (mkTally (S (matched_count t)) (skipped_count t) (excluded_count t)
       (skipped_files t),
     [ String.append "✅ MATCHED   " file_path ]
     ++ map (String.append "             └─ Rule: ") rules
     ++ [ "" ])
  else
    (mkTally (matched_count t) (S (skipped_count t)) (excluded_count t)
       (skipped_files t ++ [file_path]),
     [ String.append "❌ SKIPPED   " file_path;
       "             └─ No matching rules!";
       "" ]).

(** The loop of [main] over the files. *)
Fixpoint main_loop (files : list string) (t : tally) (out : list string)
  : option (tally * list string) :=
  match files with
  | [] => Some (t, out)
  | file_path :: rest =>
      match test_file file_path with
      | None => None
      | Some (status, rules) =>
          let (t', lines) := report_file file_path status rules t in
          main_loop rest t' (out ++ lines)
      end
  end.

(** The summary and the advice printed after the loop. *)
Definition closing (total : nat) (t : tally) : list string :=
  [ rule_of_60; "Summary"; rule_of_60;
    String.append "Total files:     " (nat_to_string total);
    String.append "✅ Matched:      " (nat_to_string (matched_count t));
    String.append (String.append "🟡 Excluded:     "
                     (nat_to_string (excluded_count t))) " (by design)";
    String.append (String.append "❌ Skipped:      "
                     (nat_to_string (skipped_count t))) " (PROBLEM!)";
    "" ]
  ++ (if Nat.ltb 0 (skipped_count t) then
        [ String.append (String.append "⚠️  WARNING: "
                           (nat_to_string (skipped_count t)))
            " files will NOT be copied!";
          "";
          "These files don't match any pattern in your config:" ]
        ++ map (String.append "  - ") (skipped_files t)
        ++ [ "";
             "If they should be copied, you need to add rules for them.";
             "";
             "Common fixes:";
             "  1. Add a catch-all rule for mflix/ directory";
             "  2. Add specific rules for these file types";
             "  3. Verify these files should actually be excluded" ]
      else [ "✅ All non-excluded files have matching rules!" ])
  ++ [ "";
       rule_of_60; "Next Steps"; rule_of_60;
       "1. Review the SKIPPED files above";
       "2. Decide if they should be copied";
       "3. If yes, add patterns to copier-config.yaml";
       "4. Run this script again to verify";
       "";
       "To test against REAL files from your repo:";
       "  cd /path/to/docs-sample-apps";
       "  git diff --name-only main";
       "" ].

(** [main], run on a list of files: what it prints; [None] when a pattern
    makes [re] raise. *)
Definition main_on (files : list string) : option (list string) :=
  match main_loop files (mkTally 0 0 0 [])
          [ rule_of_60; "Pattern Matching Test Tool"; rule_of_60; "" ] with
  | Some (t, out) => Some (out ++ closing (length files) t)
  | None => None
  end.

Definition main : option (list string) := main_on TEST_FILES.

End TesterMain.

(** ** Shapes of paths, used to say what the tables of the tester match *)

Module TesterShapes.
Import PatternTester.

(** The expression that reads the characters of [w] one after the other,
    then goes on as [k]. *)
Definition lits (w : list ascii) (k : Regex.regex) : Regex.regex :=
  fold_right (fun c r => Regex.Cat (Regex.Lit c) r) k w.

Definition no_newline (l : list ascii) : bool :=
  forallb (fun c => negb (Ascii.eqb c newline)) l.

(** The text ends with [name], or with [name] and one last newline. *)
Definition EndsWith (text name : string) : Prop :=
  exists stem tail,
    chars text = stem ++ chars name ++ tail
    /\ (tail = [] \/ tail = [newline]).

(** The text is [directory], then at least one character, none of them a
    newline, then maybe one last newline. *)
Definition LiesUnder (text directory : string) : Prop :=
  exists rest tail,
    chars text = chars directory ++ rest ++ tail
    /\ rest <> []
    /\ no_newline rest = true
    /\ (tail = [] \/ tail = [newline]).

(** The expression of a server rule: [^], the directory, a group that
    holds [.+], then [$]. *)
Definition server_regex (directory : string) : Regex.regex :=
  Regex.Cat Regex.Bol
    (lits (chars directory)
       (Regex.Cat
          (Regex.Group (Some "file")
             (Regex.Cat (Regex.Plus Regex.AnyChar) Regex.Eps))
          (Regex.Cat Regex.Eol Regex.Eps))).

(** The directories of the three server rules, by pattern. *)
Definition SERVER_DIRECTORIES : list (string * string) :=
  [ ("^mflix/server/java-spring/(?P<file>.+)$", "mflix/server/java-spring/");
    ("^mflix/server/js-express/(?P<file>.+)$", "mflix/server/js-express/");
    ("^mflix/server/python-fastapi/(?P<file>.+)$",
       "mflix/server/python-fastapi/") ].

(** What the rules of the table ask of a path, said without wildcards or
    regular expressions: a prefix rule, that the path begins with the
    pattern; a glob rule (none of the table has a wildcard), that the path
    is the pattern; a regex rule, that the path lies under the directory of
    the rule. *)
Definition TableMatches (file_path : string) (r : rule) : Prop :=
  let '(_, (pattern_type, pattern)) := r in
  (pattern_type = "prefix"
   /\ exists rest, chars file_path = chars pattern ++ rest)
  \/ (pattern_type = "glob" /\ file_path = pattern)
  \/ (pattern_type = "regex"
      /\ exists directory,
           In (pattern, directory) SERVER_DIRECTORIES
           /\ LiesUnder file_path directory).

(** The characters [fnmatch] does not take literally. *)
Definition is_wildcard (c : ascii) : bool :=
  Ascii.eqb c "*" || Ascii.eqb c "?" || Ascii.eqb c "[".

Definition literal_pattern (pattern : string) : bool :=
  negb (existsb is_wildcard (chars pattern)).

(** The literal characters an expression, or a list of wildcard tokens,
    starts with. *)
Fixpoint leading_lits (r : Regex.regex) : list ascii :=
  match r with
  | Regex.Cat (Regex.Lit c) r' => c :: leading_lits r'
  | _ => []
  end.

Fixpoint glob_lits (ts : list Glob.token) : list ascii :=
  match ts with
  | Glob.TLit c :: ts' => c :: glob_lits ts'
  | _ => []
  end.

(** Characters that every path matched by the rule starts with. *)
Definition literal_prefix (pattern_type pattern : string) : list ascii :=
  if String.eqb pattern_type "prefix" then chars pattern
  else if String.eqb pattern_type "regex" then
    match Regex.compile pattern with
    | Regex.Compiled (Regex.Cat Regex.Bol r) => leading_lits r
    | _ => []
    end
  else if String.eqb pattern_type "glob" then
    match Glob.parse pattern with
    | Some ts => glob_lits ts
    | None => []
    end
  else [].

(** Two rules with the same type and pattern, or that begin with texts
    neither of which begins with the other. *)
Definition same_or_apart (r1 r2 : rule) : bool :=
  (String.eqb (fst (snd r1)) (fst (snd r2))
   && String.eqb (snd (snd r1)) (snd (snd r2)))
  || (negb (starts_with (literal_prefix (fst (snd r1)) (snd (snd r1)))
              (literal_prefix (fst (snd r2)) (snd (snd r2))))
      && negb (starts_with (literal_prefix (fst (snd r2)) (snd (snd r2)))
                 (literal_prefix (fst (snd r1)) (snd (snd r1))))).

(** The files of a list that [test_file] classifies as [status]. *)
Definition with_status (status : string) (files : list string)
  : list string :=
  filter (fun file_path =>
            match test_file file_path with
            | Some (s, _) => String.eqb s status
            | None => false
            end) files.

End TesterShapes.

(** * Facts about the matchers *)

Section RegexFacts.
Import Regex.

Variable s : list ascii.

Lemma one_char_spec (p : ascii -> bool) (i j : nat) :
  In j (one_char p s i) <->
  exists c, nth_error s i = Some c /\ p c = true /\ j = S i.
Proof.
  unfold one_char. destruct (nth_error s i) as [c|] eqn:E.
  - destruct (p c) eqn:P; simpl.
    + split.
      * intros [H|[]]. exists c. auto.
      * intros (c' & Hc & _ & ->). now left.
    + split; [intros [] |].
      intros (c' & Hc & Hp & _). congruence.
  - simpl. split; [intros [] |]. intros (c' & Hc & _). discriminate.
Qed.

(** A match never moves backwards, and only moves inside the text. *)
Lemma Matches_bounds (r : regex) (i j : nat) :
  Matches s r i j -> i <= j /\ (j = i \/ j <= length s).
Proof.
  induction 1;
    try match goal with
        | H : nth_error s ?i = Some _ |- _ =>
            assert (i < length s)
              by (apply nth_error_Some; rewrite H; discriminate)
        end; lia.
Qed.

Lemma star_ends_sound (r : regex) :
  (forall i j, In j (ends s r i) -> Matches s r i j) ->
  forall fuel i k,
    In k (star_ends (ends s r) fuel i) -> Matches s (Star r) i k.
Proof.
  intros IH fuel. induction fuel as [|f IHf]; simpl; intros i k Hin.
  - destruct Hin as [<-|[]]. constructor.
  - destruct Hin as [<-|Hin]; [constructor|].
    apply in_flat_map in Hin. destruct Hin as (j & Hj & Hk).
    apply filter_In in Hj. destruct Hj as [Hj _].
    eapply MStarS; eauto.
Qed.

Lemma ends_sound (r : regex) :
  forall i j, In j (ends s r i) -> Matches s r i j.
Proof.
  induction r; cbn [ends]; intros i j Hin.
  - destruct Hin as [<-|[]]. constructor.
  - apply one_char_spec in Hin. destruct Hin as (c' & Hc & Hp & ->).
    apply Ascii.eqb_eq in Hp. subst c'. now constructor.
  - apply one_char_spec in Hin. destruct Hin as (c' & Hc & Hp & ->).
    apply negb_true_iff in Hp. econstructor; eauto.
  - apply one_char_spec in Hin. destruct Hin as (c' & Hc & Hp & ->).
    econstructor; eauto.
  - destruct (Nat.eqb i 0) eqn:E; [|contradiction].
    apply Nat.eqb_eq in E. destruct Hin as [<-|[]]. subst. constructor.
  - destruct (at_eol s i) eqn:E; [|contradiction].
    destruct Hin as [<-|[]]. now constructor.
  - apply in_flat_map in Hin. destruct Hin as (m & Hm & Hj).
    econstructor; eauto.
  - apply in_app_or in Hin. destruct Hin; [apply MAltL | apply MAltR]; auto.
  - eapply star_ends_sound; eauto.
  - constructor. auto.
Qed.

Lemma star_ends_complete (r : regex) :
  (forall i j, Matches s r i j -> In j (ends s r i)) ->
  forall i k, Matches s (Star r) i k ->
  forall fuel, length s < fuel + i ->
    In k (star_ends (ends s r) fuel i).
Proof.
  intros IH i k HM. remember (Star r) as sr eqn:Esr.
  induction HM; try discriminate; inversion Esr; subst; clear Esr.
  - intros fuel _. destruct fuel; simpl; auto.
  - intros fuel Hfuel.
    destruct (Matches_bounds _ _ _ HM1) as [Hle Hin].
    destruct (Nat.eq_dec j i) as [->|Hne].
    + apply IHHM2; auto.
    + destruct fuel as [|f]; simpl.
      * exfalso. lia.
      * right. apply in_flat_map. exists j. split.
        -- apply filter_In. split; [now apply IH|].
           apply Nat.ltb_lt. lia.
        -- apply IHHM2; auto. lia.
Qed.

Lemma ends_complete (r : regex) :
  forall i j, Matches s r i j -> In j (ends s r i).
Proof.
  induction r; intros i j HM.
  - inversion HM; subst. now left.
  - inversion HM; subst. simpl. apply one_char_spec.
    exists c. rewrite Ascii.eqb_refl. auto.
  - inversion HM; subst. simpl. apply one_char_spec.
    exists c. repeat split; auto. now apply negb_true_iff.
  - inversion HM; subst. simpl. apply one_char_spec. eauto.
  - inversion HM; subst. now left.
  - inversion HM; subst. simpl.
    match goal with H : at_eol _ _ = true |- _ => rewrite H end. now left.
  - inversion HM; subst. simpl. apply in_flat_map. eauto.
  - inversion HM; subst; simpl; apply in_or_app; auto.
  - cbn [ends]. apply star_ends_complete; auto. lia.
  - inversion HM; subst. simpl. auto.
Qed.

Lemma nonempty_In {A : Type} (l : list A) :
  nonempty l = true <-> exists x, In x l.
Proof.
  destruct l as [|a l]; simpl.
  - split; [discriminate | intros [x []]].
  - split; [exists a; now left | reflexivity].
Qed.

(** [re.match] succeeds exactly when some slice that starts at position 0
    matches; where the slice ends does not matter. *)
Lemma match_at_start_spec (r : regex) :
  match_at_start r s = true <-> exists j, Matches s r 0 j.
Proof.
  unfold match_at_start. rewrite nonempty_In.
  split; intros [j Hj]; exists j.
  - now apply ends_sound.
  - now apply ends_complete.
Qed.

(** [re.search] succeeds exactly when some slice of the text matches. *)
Lemma search_from_spec (r : regex) :
  search_from r s = true <->
  exists i j, i <= length s /\ Matches s r i j.
Proof.
  unfold search_from. rewrite existsb_exists. split.
  - intros (i & Hi & Hne). apply in_seq in Hi.
    apply nonempty_In in Hne. destruct Hne as [j Hj].
    exists i, j. split; [lia | now apply ends_sound].
  - intros (i & j & Hi & HM). exists i. split.
    + apply in_seq. lia.
    + apply nonempty_In. exists j. now apply ends_complete.
Qed.

End RegexFacts.

Section GlobFacts.
Import Glob.

Lemma glob_star_unfold (ts : list token) (s : list ascii) :
  glob_match (TStar :: ts) s =
  glob_match ts s
  || match s with [] => false | _ :: s' => glob_match (TStar :: ts) s' end.
Proof. destruct s; reflexivity. Qed.

Lemma glob_match_sound (ts : list token) :
  forall s, glob_match ts s = true -> GlobMatches ts s.
Proof.
  induction ts as [|t ts IH]; intros s H.
  - destruct s; [constructor | discriminate].
  - destruct t.
    + induction s as [|c s IHs].
      * rewrite glob_star_unfold, orb_false_r in H.
        apply (GStar ts [] []). auto.
      * rewrite glob_star_unfold in H. apply orb_true_iff in H.
        destruct H as [H|H].
        -- apply (GStar ts [] (c :: s)). auto.
        -- specialize (IHs H). inversion IHs; subst.
           apply (GStar ts (c :: s1) s2). assumption.
    + destruct s as [|c s]; [discriminate|]. simpl in H. constructor. auto.
    + destruct s as [|d s]; [discriminate|]. simpl in H.
      apply andb_true_iff in H. destruct H as [Hc H].
      apply Ascii.eqb_eq in Hc. subst d. constructor. auto.
Qed.

Lemma glob_star_skip (ts : list token) (s1 s2 : list ascii) :
  glob_match ts s2 = true -> glob_match (TStar :: ts) (s1 ++ s2) = true.
Proof.
  intros H. induction s1 as [|c s1 IH].
  - simpl app. rewrite glob_star_unfold, H. reflexivity.
  - simpl app. rewrite glob_star_unfold, IH. apply orb_true_r.
Qed.

Lemma glob_match_complete (ts : list token) (s : list ascii) :
  GlobMatches ts s -> glob_match ts s = true.
Proof.
  induction 1.
  - reflexivity.
  - simpl. rewrite Ascii.eqb_refl. assumption.
  - simpl. assumption.
  - now apply glob_star_skip.
Qed.

Lemma glob_match_spec (ts : list token) (s : list ascii) :
  glob_match ts s = true <-> GlobMatches ts s.
Proof.
  split; [apply glob_match_sound | apply glob_match_complete].
Qed.

End GlobFacts.

Lemma starts_with_spec (p : list ascii) :
  forall s, starts_with s p = true <-> exists rest, s = p ++ rest.
Proof.
  induction p as [|c p IH]; intros s.
  - destruct s; simpl; split; eauto.
  - destruct s as [|d s]; simpl.
    + split; [discriminate | intros [rest H]; discriminate].
    + rewrite andb_true_iff, Ascii.eqb_eq, IH. split.
      * intros [-> [rest ->]]. eauto.
      * intros [rest H]. inversion H; subst. eauto.
Qed.

(** * The pattern tester *)

Section TesterFacts.
Import PatternTester TesterSpec.

Lemma re_match_spec (pattern text : string) :
  Regex.re_match pattern text = Some true <->
  exists re j,
    Regex.compile pattern = Regex.Compiled re
    /\ Regex.Matches (chars text) re 0 j.
Proof.
  unfold Regex.re_match. split.
  - destruct (Regex.compile pattern) as [re| |]; try discriminate.
    intros H. injection H as H. apply match_at_start_spec in H.
    destruct H as [j Hj]. eauto.
  - intros (re & j & -> & HM). f_equal.
    apply match_at_start_spec. eauto.
Qed.

Lemma re_search_spec (pattern text : string) :
  Regex.re_search pattern text = Some true <->
  ExclusionMatches text pattern.
Proof.
  unfold Regex.re_search, ExclusionMatches. split.
  - destruct (Regex.compile pattern) as [re| |]; try discriminate.
    intros H. injection H as H. apply search_from_spec in H.
    destruct H as (i & j & Hi & HM). eauto 6.
  - intros (re & i & j & -> & Hi & HM). f_equal.
    apply search_from_spec. eauto.
Qed.

Lemma GlobText_tokens (l : list ascii) :
  forall ts,
    Glob.parse_chars l = Some ts ->
    forall s, Glob.GlobMatches ts s <-> GlobText l s.
Proof.
  induction l as [|c l IH]; simpl; intros ts Hp s.
  - injection Hp as <-. split; intros H; inversion H; constructor.
  - destruct (Ascii.eqb c "[") eqn:Hb; [discriminate|].
    destruct (Glob.parse_chars l) as [ts'|]; [|discriminate].
    injection Hp as <-. specialize (IH ts' eq_refl).
    destruct (Ascii.eqb_spec c "*") as [->|Hstar].
    + split; intros H; inversion H; subst.
      * constructor. now apply IH.
      * constructor. now apply IH.
      * discriminate.
    + destruct (Ascii.eqb_spec c "?") as [->|Hq].
      * split; intros H; inversion H; subst.
        -- constructor. now apply IH.
        -- constructor. now apply IH.
        -- discriminate.
      * split; intros H; inversion H; subst; try congruence.
        -- apply GTChar; [|now apply IH].
           unfold glob_special. rewrite Hb.
           apply Ascii.eqb_neq in Hstar, Hq. now rewrite Hstar, Hq.
        -- constructor. now apply IH.
Qed.

Lemma GlobText_bracket (l : list ascii) :
  Glob.parse_chars l = None -> forall s, ~ GlobText l s.
Proof.
  induction l as [|c l IH]; simpl; intros Hp s H; [discriminate|].
  destruct (Ascii.eqb c "[") eqn:Hb.
  - apply Ascii.eqb_eq in Hb. subst c. inversion H; subst. discriminate.
  - destruct (Glob.parse_chars l) as [ts'|]; [discriminate|].
    inversion H; subst; eapply IH; eauto.
Qed.

(** [fnmatch] says yes exactly when the pattern, read as wildcards,
    describes the whole name. *)
Lemma fnmatch_spec (name pat : string) :
  Glob.fnmatch name pat = Some true <-> GlobText (chars pat) (chars name).
Proof.
  unfold Glob.fnmatch, Glob.parse.
  destruct (Glob.parse_chars (chars pat)) as [ts|] eqn:E.
  - rewrite <- (GlobText_tokens _ ts E), <- glob_match_spec.
    split; congruence.
  - split; [discriminate|]. intros H.
    now apply (GlobText_bracket _ E) in H.
Qed.

(** What the script computes for a rule is what the specification says of
    it. *)
Lemma rule_hit_spec (file_path : string) (r : rule) :
  rule_hit file_path r = true <-> RuleMatches file_path r.
Proof.
  destruct r as [name [ty pat]]. unfold rule_hit, RuleMatches, rule_matched.
  destruct (String.eqb_spec ty "prefix") as [->|Hp].
  - unfold test_prefix. rewrite starts_with_spec. split; [auto|].
    intros [[_ H]|[[H _]|[H _]]]; [assumption | discriminate..].
  - destruct (String.eqb_spec ty "regex") as [->|Hr].
    + unfold test_regex.
      destruct (Regex.re_match pat file_path) as [b|] eqn:E.
      * split.
        -- intros ->. apply re_match_spec in E. auto.
        -- intros [[H _]|[[H _]|[_ H]]]; try discriminate.
           apply re_match_spec in H. congruence.
      * split; [discriminate|].
        intros [[H _]|[[H _]|[_ H]]]; try discriminate.
        apply re_match_spec in H. congruence.
    + destruct (String.eqb_spec ty "glob") as [->|Hg].
      * unfold test_glob.
        destruct (Glob.fnmatch file_path pat) as [b|] eqn:E.
        -- split.
           ++ intros ->. apply fnmatch_spec in E. auto.
           ++ intros [[H _]|[[_ H]|[H _]]]; try discriminate.
              apply fnmatch_spec in H. congruence.
        -- split; [discriminate|].
           intros [[H _]|[[_ H]|[H _]]]; try discriminate.
           apply fnmatch_spec in H. congruence.
      * split; [discriminate|].
        intros [[H _]|[[H _]|[H _]]]; congruence.
Qed.

Lemma rule_readable_total (file_path : string) (r : rule) :
  rule_readable r = true ->
  rule_matched file_path (fst (snd r)) (snd (snd r))
  = Some (rule_hit file_path r).
Proof.
  destruct r as [name [ty pat]]. cbn [fst snd].
  unfold rule_readable, rule_hit, rule_matched.
  destruct (String.eqb ty "prefix"); [reflexivity|].
  destruct (String.eqb ty "regex").
  - unfold compiles, test_regex, Regex.re_match.
    destruct (Regex.compile pat); [reflexivity | discriminate..].
  - destruct (String.eqb ty "glob"); [|reflexivity].
    unfold test_glob, Glob.fnmatch.
    destruct (Glob.parse pat); [reflexivity | discriminate].
Qed.

(** The loop visits every rule: it returns the names of the rules that
    match, appended to its accumulator in the order of the table. *)
Lemma match_rules_filter (file_path : string) (patterns : list rule) :
  forallb rule_readable patterns = true ->
  forall acc,
    match_rules patterns file_path acc
    = Some (acc ++ map fst (filter (rule_hit file_path) patterns)).
Proof.
  induction patterns as [|r rest IH]; intros Hall acc.
  - simpl. now rewrite app_nil_r.
  - simpl in Hall. apply andb_true_iff in Hall. destruct Hall as [Hr Hrest].
    pose proof (rule_readable_total file_path r Hr) as Hm.
    destruct r as [name [ty pat]]. cbn [fst snd] in Hm.
    cbn [match_rules filter]. rewrite Hm, (IH Hrest).
    destruct (rule_hit file_path (name, (ty, pat))).
    + cbn [map fst]. now rewrite <- app_assoc.
    + reflexivity.
Qed.

Lemma PATTERNS_readable : forallb rule_readable PATTERNS = true.
Proof. vm_compute. reflexivity. Qed.

Lemma test_file_not_excluded (file_path : string) :
  is_excluded file_path = Some false ->
  test_file file_path
  = Some (classify (map fst (filter (rule_hit file_path) PATTERNS))).
Proof.
  intros Hex. unfold test_file, test_file_in.
  unfold is_excluded in Hex. rewrite Hex.
  rewrite (match_rules_filter file_path PATTERNS PATTERNS_readable).
  cbn [app]. unfold classify.
  now destruct (map fst (filter (rule_hit file_path) PATTERNS)).
Qed.

(** C7.  Against the rule table and the exclusion list of the script, the
    path [mflix/client/src/App.tsx] is [matched], by the three rules
    [mflix-client-to-java], [mflix-client-to-js] and
    [mflix-client-to-python], in that order; these are the prefix rules with
    pattern [mflix/client/], and no other rule of the table matches. *)
Theorem test_file_app_tsx :
  let names :=
    ["mflix-client-to-java"; "mflix-client-to-js"; "mflix-client-to-python"] in
  test_file "mflix/client/src/App.tsx" = Some ("matched", names)
  /\ (forall n, In n names -> In (n, ("prefix", "mflix/client/")) PATTERNS)
  /\ (forall r, In r PATTERNS ->
        (RuleMatches "mflix/client/src/App.tsx" r <-> In (fst r) names)).
Proof.
  cbv zeta. split; [vm_compute; reflexivity|]. split.
  - intros n Hn. simpl in Hn.
    destruct Hn as [<-|[<-|[<-|[]]]]; simpl; tauto.
  - intros r Hr. rewrite <- rule_hit_spec.
    simpl in Hr.
    repeat (destruct Hr as [<-|Hr];
            [vm_compute;
             split; intros H; try discriminate H; try tauto;
             repeat (destruct H as [H|H]; try discriminate H); tauto|]).
    destruct Hr.
Qed.

(** ** Exclusions *)

Lemma re_search_compiles (pattern text : string) :
  compiles pattern = true -> Regex.re_search pattern text <> None.
Proof.
  unfold compiles, Regex.re_search.
  destruct (Regex.compile pattern); discriminate.
Qed.

Lemma is_excluded_in_found (file_path : string) (exclusions : list string) :
  is_excluded_in exclusions file_path = Some true ->
  exists pattern,
    In pattern exclusions /\ ExclusionMatches file_path pattern.
Proof.
  induction exclusions as [|p rest IH]; simpl; [discriminate|].
  destruct (Regex.re_search p file_path) as [[|]|] eqn:E; intros H.
  - exists p. split; [now left | now apply re_search_spec].
  - destruct (IH H) as (q & Hq & HM). exists q. auto.
  - discriminate.
Qed.

Lemma is_excluded_in_finds (file_path : string) (exclusions : list string) :
  forallb compiles exclusions = true ->
  (exists pattern,
     In pattern exclusions /\ ExclusionMatches file_path pattern) ->
  is_excluded_in exclusions file_path = Some true.
Proof.
  induction exclusions as [|p rest IH]; simpl; intros Hall (q & Hq & HM).
  - contradiction.
  - apply andb_true_iff in Hall. destruct Hall as [Hp Hrest].
    destruct (Regex.re_search p file_path) as [[|]|] eqn:E.
    + reflexivity.
    + apply IH; [assumption|]. exists q. split; [|assumption].
      destruct Hq as [->|Hq]; [|assumption].
      apply re_search_spec in HM. congruence.
    + now apply re_search_compiles with (text := file_path) in Hp.
Qed.

Lemma EXCLUSIONS_compile : forallb compiles EXCLUSIONS = true.
Proof. vm_compute. reflexivity. Qed.

(** [is_excluded] says yes exactly when some exclusion pattern matches
    somewhere in the path. *)
Lemma is_excluded_spec (file_path : string) :
  is_excluded file_path = Some true <->
  exists pattern,
    In pattern EXCLUSIONS /\ ExclusionMatches file_path pattern.
Proof.
  split.
  - apply is_excluded_in_found.
  - apply is_excluded_in_finds, EXCLUSIONS_compile.
Qed.

Lemma is_excluded_in_total (file_path : string) (exclusions : list string) :
  forallb compiles exclusions = true ->
  is_excluded_in exclusions file_path <> None.
Proof.
  induction exclusions as [|p rest IH]; simpl; intros Hall.
  - discriminate.
  - apply andb_true_iff in Hall. destruct Hall as [Hp Hrest].
    pose proof (re_search_compiles p file_path Hp) as Hs.
    destruct (Regex.re_search p file_path) as [[|]|];
      [discriminate | now apply IH | congruence].
Qed.

Lemma is_excluded_not (file_path : string) :
  (forall pattern,
     In pattern EXCLUSIONS -> ~ ExclusionMatches file_path pattern) ->
  is_excluded file_path = Some false.
Proof.
  intros Hno.
  pose proof (is_excluded_in_total file_path EXCLUSIONS EXCLUSIONS_compile)
    as Htot.
  pose proof (is_excluded_in_found file_path EXCLUSIONS) as Hfound.
  unfold is_excluded.
  destruct (is_excluded_in EXCLUSIONS file_path) as [[|]|];
    [|reflexivity | congruence].
  destruct (Hfound eq_refl) as (q & Hq & HM). now destruct (Hno q Hq).
Qed.

(** C2.  A file path in which some exclusion pattern matches (anywhere in
    the path, no anchoring) is classified [excluded], with an empty list of
    rules; no rule is looked at: the answer is the same whatever the rule
    table holds, also rules that would have matched the path. *)
Theorem excluded_before_any_rule (file_path : string) :
  (exists pattern,
     In pattern EXCLUSIONS /\ ExclusionMatches file_path pattern) ->
  is_excluded file_path = Some true
  /\ test_file file_path = Some ("excluded", [])
  /\ forall patterns,
       test_file_in EXCLUSIONS patterns file_path = Some ("excluded", []).
Proof.
  intros H. apply is_excluded_spec in H.
  assert (Hall : forall patterns,
             test_file_in EXCLUSIONS patterns file_path
             = Some ("excluded", [])).
  { intros patterns. unfold test_file_in.
    unfold is_excluded in H. now rewrite H. }
  repeat split; [assumption | apply Hall | apply Hall].
Qed.

Lemma excluded_before_any_rule_witness :
  test_file "mflix/README.md" = Some ("excluded", []).
Proof.
  apply (excluded_before_any_rule "mflix/README.md").
  exists "README\.md$". split.
  - simpl. tauto.
  - apply re_search_spec. vm_compute. reflexivity.
Defined.

(** A path of the script's own list that three rules match, and that is
    excluded all the same. *)
Example client_readme_excluded :
  match_rules PATTERNS "mflix/client/README.md" []
  = Some ["mflix-client-to-java"; "mflix-client-to-js";
          "mflix-client-to-python"]
  /\ test_file "mflix/client/README.md" = Some ("excluded", []).
Proof. split; vm_compute; reflexivity. Qed.

(** The run of the script on its own list of files. *)
Example count_test_files :
  count_files TEST_FILES (mkTally 0 0 0 [])
  = Some (mkTally 15 3 4
            ["mflix/docker-compose.yml"; "mflix/package.json";
             "other/file.txt"]).
Proof. vm_compute. reflexivity. Qed.

End TesterFacts.

(** * The config validator *)

Section ValidatorFacts.
Import Validator ValidatorSpec.
Context {RT : PyRuntime}.

(** ** Nothing recorded is ever taken back *)

Lemma grows_refl (st : state) : grows st st.
Proof. repeat split; exists []; now rewrite app_nil_r. Qed.

Lemma grows_trans (a b c : state) : grows a b -> grows b c -> grows a c.
Proof.
  intros ([i1 Hi1] & [w1 Hw1] & [o1 Ho1]) ([i2 Hi2] & [w2 Hw2] & [o2 Ho2]).
  repeat split.
  - exists (i1 ++ i2). now rewrite Hi2, Hi1, app_assoc.
  - exists (w1 ++ w2). now rewrite Hw2, Hw1, app_assoc.
  - exists (o1 ++ o2). now rewrite Ho2, Ho1, app_assoc.
Qed.

Lemma grows_add_issue (msg : string) (st : state) :
  grows st (add_issue msg st).
Proof.
  repeat split; simpl; [exists [msg] | exists [] | exists []];
    now rewrite ?app_nil_r.
Qed.

Lemma grows_add_warning (msg : string) (st : state) :
  grows st (add_warning msg st).
Proof.
  repeat split; simpl; [exists [] | exists [msg] | exists []];
    now rewrite ?app_nil_r.
Qed.

Lemma grows_print_all (lines : list string) (st : state) :
  grows st (print_all lines st).
Proof.
  repeat split; simpl; [exists [] | exists [] | exists lines];
    now rewrite ?app_nil_r.
Qed.

Lemma grows_print (line : string) (st : state) : grows st (print line st).
Proof. apply (grows_print_all [line]). Qed.



Create HintDb grows.

#[local] Hint Resolve grows_refl grows_add_issue grows_add_warning
  grows_print grows_print_all : grows.

Ltac grows_step :=
  match goal with
  | |- grows ?st ?st => apply grows_refl
  | |- grows ?st (add_issue _ ?st') =>
      apply grows_trans with st'; [|apply grows_add_issue]
  | |- grows ?st (add_warning _ ?st') =>
      apply grows_trans with st'; [|apply grows_add_warning]
  | |- grows ?st (print _ ?st') =>
      apply grows_trans with st'; [|apply grows_print]
  | |- grows ?st (print_all _ ?st') =>
      apply grows_trans with st'; [|apply grows_print_all]
  | |- grows _ (if ?b then _ else _) => destruct b
  | |- grows _ (match ?x with _ => _ end) => destruct x
  end.

Lemma grows_validate_target (rule_name : value) (j : nat) (target : value)
  (st : state) : grows st (validate_target rule_name j target st).
Proof. unfold validate_target. repeat grows_step. Qed.

Lemma grows_validate_targets (rule_name : value) (targets : list value) :
  forall j st, grows st (validate_targets rule_name j targets st).
Proof.
  induction targets as [|t rest IH]; intros j st; simpl.
  - apply grows_refl.
  - eapply grows_trans; [apply grows_validate_target | apply IH].
Qed.

Lemma grows_check_targets (rule_name : value) (r : list (value * value))
  (st : state) : grows st (check_targets rule_name r st).
Proof.
  unfold check_targets.
  destruct (get_or "targets" r (VList [])); try apply grows_add_issue.
  apply grows_trans with
    (validate_targets rule_name 1 items
       match items with
       | [] => add_warning (in_rule rule_name "No targets defined") st
       | _ :: _ => st
       end); [|apply grows_print].
  eapply grows_trans; [|apply grows_validate_targets].
  destruct items; auto with grows.
Qed.

Lemma grows_check_pattern_type (rule_name pattern_type : value) (st : state) :
  grows st (check_pattern_type rule_name pattern_type st).
Proof. unfold check_pattern_type. repeat grows_step. Qed.

Lemma grows_check_present_pattern (rule_name pattern_type : value)
  (s : string) (st : state) :
  grows st
    (result_state (check_present_pattern rule_name pattern_type s st)).
Proof.
  unfold check_present_pattern. cbv zeta.
  destruct (is_str pattern_type "regex");
    [destruct (re_compile s)|]; cbn [result_state];
    repeat grows_step.
Qed.

Lemma grows_check_pattern_str (rule_name pattern_type pattern_str : value)
  (st : state) :
  grows st
    (result_state (check_pattern_str rule_name pattern_type pattern_str st)).
Proof.
  unfold check_pattern_str.
  destruct (negb (truthy pattern_str)); simpl; [apply grows_add_issue|].
  destruct pattern_str; simpl; auto using grows_check_present_pattern
    with grows.
Qed.

Lemma grows_validate_rule (i : nat) (rule : value) (st : state) :
  grows st (result_state (validate_rule i rule st)).
Proof.
  unfold validate_rule.
  destruct rule as [| | | | |items|r]; simpl; try apply grows_refl.
  set (name := rule_name_of i r).
  set (st0 := announce_rule i name st).
  assert (H0 : grows st st0) by apply grows_print.
  destruct (dict_get "source_pattern" r) as [pattern|]; simpl;
    [|eapply grows_trans; [exact H0 | apply grows_add_issue]].
  destruct (negb (dict_has "targets" r)); simpl;
    [eapply grows_trans; [exact H0 | apply grows_add_issue]|].
  destruct pattern as [| | | | |items|p]; simpl;
    try (eapply grows_trans; [exact H0 | apply grows_add_issue]).
  set (ty := get_or "type" p VNone).
  set (ps := get_or "pattern" p VNone).
  pose proof (grows_check_pattern_type name ty st0) as H1.
  pose proof (grows_check_pattern_str name ty ps
                (check_pattern_type name ty st0)) as H2.
  destruct (check_pattern_str name ty ps (check_pattern_type name ty st0))
    as [st1|e st1]; simpl in *.
  - eapply grows_trans; [exact H0|]. eapply grows_trans; [exact H1|].
    eapply grows_trans; [exact H2|]. apply grows_check_targets.
  - eapply grows_trans; [exact H0|]. eapply grows_trans; [exact H1|].
    exact H2.
Qed.

Lemma grows_validate_rules (rules : list value) :
  forall i st, grows st (result_state (validate_rules i rules st)).
Proof.
  induction rules as [|rule rest IH]; intros i st; simpl.
  - apply grows_refl.
  - pose proof (grows_validate_rule i rule st) as H.
    destruct (validate_rule i rule st) as [st1|e st1]; simpl in *.
    + eapply grows_trans; [exact H | apply IH].
    + exact H.
Qed.

(** ** The report does not depend on what the console showed before *)

















(** ** The value returned and the exit status *)




(** C3.  The configuration [{source_repo: org/source, copy_rules: null}]
    parses and its root is a mapping; the validator records no issue for
    it, yet the run does not succeed: [len] is applied to [None], the call
    ends in [TypeError], and the process exits with status 1. *)
Theorem null_copy_rules_raises :
  let o := validate_config (Parsed (sample_config VNone)) in
  (exists st, o = Raised TypeError st)
  /\ issues (final_state o) = []
  /\ warnings (final_state o) = []
  /\ returned o = None
  /\ exit_code o = 1%Z.
Proof. cbv zeta. repeat split. eexists. reflexivity. Qed.

(** C4.  A mapping that lacks [source_repo] or [copy_rules] makes
    [validate_config] return failure with exactly one issue for each
    missing key, printed under the heading of the structural issues; no
    warning is recorded, and nothing about a rule or a target is recorded
    or printed. *)
Theorem missing_required_fields (c : list (value * value)) :
  dict_has "source_repo" c = false \/ dict_has "copy_rules" c = false ->
  validate_config (Parsed (VDict c))
  = Returned false
      (mkState (missing_fields c) []
         (["✅ YAML syntax is valid"; ""; "❌ Structural Issues:"]
          ++ map (String.append "   - ") (missing_fields c))).
Proof.
  intros H. unfold validate_config, validate_config_from, missing_fields.
  destruct (dict_has "source_repo" c), (dict_has "copy_rules" c);
    try reflexivity.
  destruct H; discriminate.
Qed.

(** C8.  On a document whose root is not a mapping, [validate_config]
    returns failure at once: the only issue recorded is the structural
    one, there is no warning, and no check of the top-level keys, of a rule
    or of a target takes place.  The issue stays in the list: the console
    shows the line about the YAML syntax and an empty line, nothing
    else. *)
Theorem root_not_mapping (config : value) :
  is_dict config = false ->
  validate_config (Parsed config)
  = Returned false
      (mkState ["Config must be a dictionary"] []
         ["✅ YAML syntax is valid"; ""]).
Proof.
  intros H. destruct config; try discriminate; reflexivity.
Qed.


(** ** Rules *)







End ValidatorFacts.

Section ValidatorExamples.
Import Validator ValidatorSpec.

Lemma missing_required_fields_witness :
  validate_config (RT := SampleRuntime)
    (Parsed (VDict [(VStr "source_repo", VStr "org/source");
                    (VStr "rules", VList [VInt 7])]))
  = Returned false
      (mkState ["Missing required field: copy_rules"] []
         ["✅ YAML syntax is valid"; ""; "❌ Structural Issues:";
          "   - Missing required field: copy_rules"]).
Proof.
  apply (missing_required_fields (RT := SampleRuntime)
           [(VStr "source_repo", VStr "org/source");
            (VStr "rules", VList [VInt 7])]).
  right. reflexivity.
Defined.

Lemma root_not_mapping_witness :
  validate_config (RT := SampleRuntime) (Parsed (VList [VStr "a"]))
  = Returned false
      (mkState ["Config must be a dictionary"] []
         ["✅ YAML syntax is valid"; ""]).
Proof.
  apply (root_not_mapping (RT := SampleRuntime) (VList [VStr "a"])).
  reflexivity.
Defined.



(** A rule without a [targets] key leaves the loop body at the check of its
    keys: its pattern is never looked at. *)




End ValidatorExamples.



(** * More on the config validator *)

Section ValidatorAcceptance.
Import Validator ValidatorSpec ValidatorChecks.
Context {RT : PyRuntime}.



(** *** Targets *)





(** *** The pattern of a rule *)






(** *** The targets of a rule *)



(** *** Rules *)






(** *** When the loop raises *)






(** ** Properties of the validator *)




End ValidatorAcceptance.

(** ** What the run prints and how runs compose *)

Section ValidatorReport.
Import Validator ValidatorSpec ValidatorChecks.
Context {RT : PyRuntime}.

Lemma summary_prints (st : state) (b : bool) (st' : state) :
  summary st = Returned b st' ->
  issues st' = issues st /\ warnings st' = warnings st
  /\ (forall x, In x (issues st) ->
        In (String.append "   ❌ " x) (console st'))
  /\ (forall w, In w (warnings st) ->
        In (String.append "   ⚠️  " w) (console st')).
Proof.
  destruct st as [iss ws con]. unfold summary.
  destruct iss as [|i0 iss], ws as [|w0 ws];
    cbn -[app map String.append In]; intros H; injection H as <- <-;
    cbn -[app map String.append In];
    (split; [reflexivity|]); (split; [reflexivity|]);
    (split; [intros x Hx | intros w Hw]);
    try contradiction;
    try (apply (in_map (String.append "   ❌ ")) in Hx);
    try (apply (in_map (String.append "   ⚠️  ")) in Hw);
    simpl in *; repeat (rewrite in_app_iff; simpl); tauto.
Qed.

(** X4.  When [validate_config] returns on a document whose root is a
    mapping, every issue it recorded is on the console, after ["   - "]
    (missing top-level keys) or ["   ❌ "] (closing report), and every
    warning is on the console after ["   ⚠️  "]. *)
Theorem recorded_is_printed (c : list (value * value)) (b : bool)
  (st : state) :
  validate_config (Parsed (VDict c)) = Returned b st ->
  (forall x, In x (issues st) ->
     In (String.append "   - " x) (console st)
     \/ In (String.append "   ❌ " x) (console st))
  /\ (forall w, In w (warnings st) ->
        In (String.append "   ⚠️  " w) (console st)).
Proof.
  unfold validate_config, validate_config_from. cbv zeta.
  set (st0 := print_all _ _).
  assert (Hstruct :
    forall st2 : state,
      warnings st2 = [] ->
      Returned false
        (print_all
           ("❌ Structural Issues:"
            :: map (String.append "   - ") (issues st2)) st2)
      = Returned b st ->
      (forall x, In x (issues st) ->
         In (String.append "   - " x) (console st)
         \/ In (String.append "   ❌ " x) (console st))
      /\ (forall w, In w (warnings st) ->
            In (String.append "   ⚠️  " w) (console st))).
  { intros st2 Hw H. injection H as <- <-. cbn [issues warnings console print_all].
    split.
    - intros x Hx. left. apply in_or_app. right. right.
      now apply in_map.
    - rewrite Hw. contradiction. }
  destruct (dict_has "source_repo" c), (dict_has "copy_rules" c);
    cbn [issues st0 print_all add_issue app];
    try (apply Hstruct; reflexivity).
  destruct (elements _) as [rules|]; [|discriminate].
  destruct (validate_rules 1 rules _) as [st5|e st5]; [|discriminate].
  intros H. destruct (summary_prints st5 b st H) as (Hi & Hw & Hpi & Hpw).
  rewrite Hi, Hw. split; auto.
Qed.

(** X5.  The loop over the rules only ever adds to the end of the issue
    list, of the warning list and of the console: what was recorded or
    printed before a rule is validated is still there, in the same place,
    when the loop ends, whether it ended normally or in an exception. *)
Theorem rules_only_append (rules : list value) (i : nat) (st : state) :
  let st' := result_state (validate_rules i rules st) in
  (exists added, issues st' = issues st ++ added)
  /\ (exists added, warnings st' = warnings st ++ added)
  /\ (exists added, console st' = console st ++ added).
Proof. apply grows_validate_rules. Qed.

(** X6.  Validating a list of rules in two parts gives the same result as
    validating it at once: the second part is numbered from where the first
    stopped and starts from the state the first part left; when the first
    part raises, the second part is not looked at. *)
Theorem validate_rules_app (rules1 rules2 : list value) :
  forall i st,
    validate_rules i (rules1 ++ rules2) st
    = bind (validate_rules i rules1 st)
        (validate_rules (i + length rules1) rules2).
Proof.
  induction rules1 as [|rule rest IH]; intros i st; simpl.
  - now rewrite Nat.add_0_r.
  - destruct (validate_rule i rule st) as [st1|e st1]; simpl.
    + rewrite IH. now rewrite Nat.add_succ_comm.
    + reflexivity.
Qed.



End ValidatorReport.

Section ValidatorReportExamples.
Import Validator ValidatorSpec ValidatorChecks.


Lemma recorded_is_printed_witness :
  In "   ❌ Rule 'orphan': Missing targets"
    (console
       (final_state
          (validate_config (RT := SampleRuntime)
             (Parsed
                (sample_config
                   (VList
                      [VDict (rule_without_targets "glob" (VStr "docs/*"))])))))).
Proof.
  destruct (recorded_is_printed (RT := SampleRuntime)
              (match sample_config
                       (VList
                          [VDict (rule_without_targets "glob" (VStr "docs/*"))])
               with VDict c => c | _ => [] end)
              false
              (final_state
                 (validate_config (RT := SampleRuntime)
                    (Parsed
                       (sample_config
                          (VList
                             [VDict
                                (rule_without_targets "glob"
                                   (VStr "docs/*"))]))))))
    as [Hi _]; [vm_compute; reflexivity|].
  destruct (Hi "Rule 'orphan': Missing targets") as [H|H].
  - vm_compute. now left.
  - vm_compute in H.
    repeat (destruct H as [H|H]; [discriminate H|]). destruct H.
  - exact H.
Defined.


End ValidatorReportExamples.

(** * More on the pattern tester *)

Section TesterTotal.
Import PatternTester TesterSpec TesterShapes TesterMain.

Lemma test_file_cases (file_path : string) :
  test_file file_path = Some ("excluded", [])
  \/ test_file file_path
     = Some (classify (map fst (filter (rule_hit file_path) PATTERNS))).
Proof.
  pose proof (is_excluded_in_total file_path EXCLUSIONS EXCLUSIONS_compile)
    as Htot.
  destruct (is_excluded file_path) as [[|]|] eqn:E.
  - left. unfold test_file, test_file_in.
    unfold is_excluded in E. now rewrite E.
  - right. now apply test_file_not_excluded.
  - unfold is_excluded in E. congruence.
Qed.

Lemma filter_keeps_keys_distinct (keep : rule -> bool) (table : list rule) :
  NoDup (map fst table) -> NoDup (map fst (filter keep table)).
Proof.
  induction table as [|r table IH]; simpl; intros Hnd; [constructor|].
  inversion Hnd as [|k ks Hfresh Hrest]; subst.
  destruct (keep r); simpl; [|auto].
  constructor; [|auto].
  rewrite in_map_iff. intros (r' & Hk & Hin).
  apply filter_In in Hin. apply Hfresh.
  rewrite in_map_iff. exists r'. tauto.
Qed.

Lemma PATTERNS_keys_distinct : NoDup (map fst PATTERNS).
Proof.
  repeat constructor; simpl; intros H;
    repeat (destruct H as [H|H]; [discriminate H|]); exact H.
Qed.

(** X8.  [test_file] gives an answer for every file path, and the answer
    has one of three shapes: [excluded] with no rule, [skipped] with no
    rule, or [matched] with at least one rule; the rules listed are keys of
    the table, in the order of the table, none of them twice. *)
Theorem test_file_answers (file_path : string) :
  exists status rules,
    test_file file_path = Some (status, rules)
    /\ ((status = "excluded" /\ rules = [])
        \/ (status = "skipped" /\ rules = [])
        \/ (status = "matched" /\ rules <> []))
    /\ NoDup rules
    /\ exists keep, rules = map fst (filter keep PATTERNS).
Proof.
  destruct (test_file_cases file_path) as [H|H]; rewrite H.
  - exists "excluded", []. repeat split; auto.
    + constructor.
    + exists (fun _ => false). reflexivity.
  - unfold classify.
    destruct (map fst (filter (rule_hit file_path) PATTERNS))
      as [|n names] eqn:E.
    + exists "skipped", []. repeat split; auto.
      * constructor.
      * exists (fun _ => false). reflexivity.
    + exists "matched", (n :: names). repeat split.
      * right. right. split; [reflexivity | discriminate].
      * rewrite <- E. apply filter_keeps_keys_distinct, PATTERNS_keys_distinct.
      * exists (rule_hit file_path). now rewrite E.
Qed.

(** ** The report of [main] *)

Lemma test_file_total (file_path : string) :
  exists status rules, test_file file_path = Some (status, rules).
Proof.
  destruct (test_file_cases file_path) as [H|H]; rewrite H; eauto.
  destruct (classify _); eauto.
Qed.

Lemma test_file_status (file_path status : string) (rules : list string) :
  test_file file_path = Some (status, rules) ->
  status = "excluded" \/ status = "matched" \/ status = "skipped".
Proof.
  destruct (test_file_cases file_path) as [H|H]; rewrite H.
  - intros E. injection E as <- <-. auto.
  - unfold classify. destruct (map fst _); intros E;
      injection E as <- <-; auto.
Qed.

Lemma main_loop_spec (files : list string) :
  forall t out,
    exists t' out',
      main_loop files t out = Some (t', out')
      /\ matched_count t' = matched_count t + length (with_status "matched" files)
      /\ excluded_count t'
         = excluded_count t + length (with_status "excluded" files)
      /\ skipped_count t'
         = skipped_count t + length (with_status "skipped" files)
      /\ skipped_files t' = skipped_files t ++ with_status "skipped" files.
Proof.
  induction files as [|f rest IH]; intros t out; cbn [main_loop].
  - exists t, out. cbn. rewrite !Nat.add_0_r, app_nil_r. auto.
  - destruct (test_file_total f) as (status & rules & E).
    pose proof (test_file_status f status rules E) as Hs.
    rewrite E. unfold with_status in *. cbn [filter]. rewrite E.
    destruct Hs as [-> | [-> | ->]]; cbn [report_file String.eqb Ascii.eqb Bool.eqb];
      match goal with
      | |- context [main_loop rest ?t1 ?o1] =>
          destruct (IH t1 o1) as (t' & out' & -> & Hm & He & Hk & Hf)
      end;
      exists t', out'; cbn [matched_count excluded_count skipped_count
                              skipped_files length] in *;
      rewrite Hm, He, Hk, Hf, <- ?app_assoc; cbn [app];
      repeat split; lia.
Qed.

Lemma with_status_partition (files : list string) :
  length (with_status "matched" files)
  + length (with_status "excluded" files)
  + length (with_status "skipped" files) = length files.
Proof.
  induction files as [|f rest IH]; [reflexivity|].
  destruct (test_file_total f) as (status & rules & E).
  pose proof (test_file_status f status rules E) as Hs.
  unfold with_status in *. cbn [filter]. rewrite E.
  destruct Hs as [-> | [-> | ->]]; cbn [String.eqb Ascii.eqb Bool.eqb length];
    lia.
Qed.

Lemma with_status_In (status : string) (files : list string) (f : string) :
  In f (with_status status files) <->
  In f files /\ exists rules, test_file f = Some (status, rules).
Proof.
  unfold with_status. rewrite filter_In. split; intros [Hin H]; split; auto.
  - destruct (test_file f) as [[s rules]|]; [|discriminate].
    apply String.eqb_eq in H. subst. eauto.
  - destruct H as [rules ->]. apply String.eqb_refl.
Qed.

Lemma main_loop_output (files : list string) :
  forall t out t' out',
    main_loop files t out = Some (t', out') ->
    (forall x, In x out -> In x out')
    /\ (forall f rules,
          In f files -> test_file f = Some ("skipped", rules) ->
          In (String.append "❌ SKIPPED   " f) out').
Proof.
  induction files as [|f rest IH]; intros t out t' out'; cbn [main_loop].
  - intros H. injection H as <- <-. split; [auto | contradiction].
  - destruct (test_file f) as [[status rules]|] eqn:E; [|discriminate].
    destruct (report_file f status rules t) as [t1 lines] eqn:R.
    intros H. destruct (IH _ _ _ _ H) as [Hkeep Hskip]. split.
    + intros x Hx. apply Hkeep, in_or_app. now left.
    + intros g rs [<-|Hg] Hs; [|eauto].
      apply Hkeep, in_or_app. right.
      rewrite E in Hs. injection Hs as -> ->.
      cbn in R. injection R as <- <-. now left.
Qed.

(** X9.  On any list of files, [main] runs to the end, and its counters
    add up: every file is counted once, as matched, excluded or skipped;
    the list of skipped files holds exactly the files [test_file] could not
    match, in the order of the input, and the counter of skipped files is
    its length. *)
Theorem main_counts (files : list string) :
  exists t out,
    main_loop files (mkTally 0 0 0 [])
      [rule_of_60; "Pattern Matching Test Tool"; rule_of_60; ""]
    = Some (t, out)
    /\ main_on files = Some (out ++ closing (length files) t)
    /\ matched_count t + excluded_count t + skipped_count t = length files
    /\ skipped_files t = with_status "skipped" files
    /\ skipped_count t = length (skipped_files t).
Proof.
  destruct (main_loop_spec files (mkTally 0 0 0 [])
              [rule_of_60; "Pattern Matching Test Tool"; rule_of_60; ""])
    as (t & out & H & Hm & He & Hk & Hf).
  exists t, out. unfold main_on. rewrite H.
  cbn [matched_count excluded_count skipped_count skipped_files app plus]
    in *.
  repeat split; auto.
  - rewrite Hm, He, Hk. apply with_status_partition.
  - now rewrite Hk, Hf.
Qed.

(** X10.  In what [main] prints, a file that no rule matches appears twice:
    flagged as skipped where the files are listed, and named again in the
    list of the files that will not be copied.  When no file is skipped the
    report says that all the files have matching rules. *)
Theorem main_names_skipped_files (files out : list string) :
  main_on files = Some out ->
  (forall f rules,
     In f files -> test_file f = Some ("skipped", rules) ->
     In (String.append "❌ SKIPPED   " f) out
     /\ In (String.append "  - " f) out)
  /\ (with_status "skipped" files = [] ->
      In "✅ All non-excluded files have matching rules!" out).
Proof.
  destruct (main_loop_spec files (mkTally 0 0 0 [])
              [rule_of_60; "Pattern Matching Test Tool"; rule_of_60; ""])
    as (t & out1 & H & _ & _ & Hk & Hf).
  unfold main_on. rewrite H. intros E. injection E as <-.
  cbn [skipped_count skipped_files app plus] in Hk, Hf.
  destruct (main_loop_output _ _ _ _ _ H) as [_ Hskip].
  split.
  - intros f rules Hin Hs. split.
    + apply in_or_app. left. eauto.
    + assert (Hw : In f (with_status "skipped" files))
        by (apply with_status_In; eauto).
      apply in_or_app. right. unfold closing.
      apply in_or_app. right. apply in_or_app. left.
      rewrite Hk, Hf.
      destruct (with_status "skipped" files) as [|g gs] eqn:Ew;
        [contradiction|].
      cbn [length Nat.ltb Nat.leb].
      apply in_or_app. right. apply in_or_app. left.
      now apply in_map.
  - intros Hnone. apply in_or_app. right. unfold closing.
    apply in_or_app. right. apply in_or_app. left.
    rewrite Hk, Hnone. now left.
Qed.

End TesterTotal.

Section TesterTotalExamples.
Import PatternTester TesterSpec TesterShapes TesterMain.

Lemma main_names_skipped_files_witness :
  exists out,
    main_on TEST_FILES = Some out
    /\ In "❌ SKIPPED   other/file.txt" out
    /\ In "  - other/file.txt" out.
Proof.
  destruct (main_on TEST_FILES) as [out|] eqn:E;
    [|vm_compute in E; discriminate E].
  exists out. split; [reflexivity|].
  destruct (main_names_skipped_files TEST_FILES out E) as [Hs _].
  apply (Hs "other/file.txt" []).
  - vm_compute. tauto.
  - vm_compute. reflexivity.
Defined.

End TesterTotalExamples.

(** * What the patterns of the tester say about a path *)

Section PatternShapes.
Import PatternTester TesterSpec TesterShapes.

Lemma chars_inj (a b : string) : chars a = chars b -> a = b.
Proof.
  unfold chars. intros H.
  rewrite <- (string_of_list_ascii_of_string a),
    <- (string_of_list_ascii_of_string b).
  now rewrite H.
Qed.

Lemma prefix_nth (w t : list ascii) :
  (forall m c, nth_error w m = Some c -> nth_error t m = Some c)
  <-> exists post, t = w ++ post.
Proof.
  split.
  - revert t. induction w as [|c w IH]; intros t H.
    + now exists t.
    + destruct t as [|d t].
      * specialize (H 0 c eq_refl). discriminate H.
      * pose proof (H 0 c eq_refl) as H0. injection H0 as ->.
        destruct (IH t) as [post ->].
        { intros m e Hm. apply (H (S m) e Hm). }
        now exists post.
  - intros [post ->] m c Hm.
    rewrite nth_error_app1; [assumption|].
    apply nth_error_Some. rewrite Hm. discriminate.
Qed.

(** ** Wildcard patterns without wildcards *)

Lemma parse_chars_literal (l : list ascii) :
  existsb is_wildcard l = false ->
  Glob.parse_chars l = Some (map Glob.TLit l).
Proof.
  induction l as [|c l IH]; simpl; intros H; [reflexivity|].
  apply orb_false_iff in H. destruct H as [Hc Hl].
  unfold is_wildcard in Hc.
  apply orb_false_iff in Hc. destruct Hc as [Hc Hbr].
  apply orb_false_iff in Hc. destruct Hc as [Hst Hq].
  now rewrite Hbr, Hst, Hq, (IH Hl).
Qed.

Lemma glob_match_literal (w : list ascii) :
  forall s, Glob.glob_match (map Glob.TLit w) s = true <-> s = w.
Proof.
  induction w as [|c w IH]; intros s; simpl.
  - destruct s; split; congruence.
  - destruct s as [|d s]; [split; discriminate|].
    rewrite andb_true_iff, Ascii.eqb_eq, IH. split.
    + intros [-> ->]. reflexivity.
    + intros H. injection H as -> ->. auto.
Qed.

Lemma fnmatch_literal (name pattern : string) :
  literal_pattern pattern = true ->
  Glob.fnmatch name pattern = Some (String.eqb name pattern).
Proof.
  unfold literal_pattern, Glob.fnmatch, Glob.parse.
  intros H. apply negb_true_iff in H.
  rewrite (parse_chars_literal _ H). f_equal.
  destruct (String.eqb_spec name pattern) as [->|Hne].
  - now apply glob_match_literal.
  - apply not_true_iff_false. intros Hm.
    apply glob_match_literal in Hm. now apply chars_inj in Hm.
Qed.

(** X11.  A glob pattern with none of the characters [*], [?] and [[]
    matches one path only, the pattern itself: [test_glob] compares the
    path and the pattern for equality. *)
Theorem test_glob_literal (file_path pattern : string) :
  literal_pattern pattern = true ->
  test_glob file_path pattern = Some (String.eqb file_path pattern).
Proof. apply fnmatch_literal. Qed.

Lemma test_glob_literal_witness :
  test_glob "mflix/.gitignore-js" "mflix/.gitignore-java" = Some false
  /\ test_glob "mflix/.gitignore-java" "mflix/.gitignore-java" = Some true.
Proof.
  split.
  - apply (test_glob_literal "mflix/.gitignore-js" "mflix/.gitignore-java").
    reflexivity.
  - apply (test_glob_literal "mflix/.gitignore-java" "mflix/.gitignore-java").
    reflexivity.
Defined.

(** ** Expressions that begin with literal characters *)

Lemma Matches_lits (s w : list ascii) (k : Regex.regex) :
  forall i j,
    Regex.Matches s (lits w k) i j <->
    (forall m c, nth_error w m = Some c -> nth_error s (i + m) = Some c)
    /\ Regex.Matches s k (i + length w) j.
Proof.
  induction w as [|c w IH]; intros i j; cbn [lits fold_right length].
  - rewrite Nat.add_0_r. split; [|tauto].
    intros H. split; [|assumption].
    intros m c Hm. destruct m; discriminate Hm.
  - fold (lits w k). split.
    + intros H. inversion H as [| | | | | |r1 r2 i0 mid j0 H1 H2| | | | |];
        subst.
      inversion H1; subst. apply IH in H2. destruct H2 as [Hw Hk].
      split.
      * intros [|m] e Hm.
        -- rewrite Nat.add_0_r. simpl in Hm. congruence.
        -- rewrite <- Nat.add_succ_comm. now apply Hw.
      * now rewrite <- Nat.add_succ_comm.
    + intros [Hw Hk]. apply Regex.MCat with (j := S i).
      * constructor. rewrite <- (Nat.add_0_r i). now apply Hw.
      * apply IH. split.
        -- intros m e Hm. rewrite Nat.add_succ_comm. now apply Hw.
        -- now rewrite Nat.add_succ_comm.
Qed.

Lemma Matches_eol (s : list ascii) (i j : nat) :
  Regex.Matches s (Regex.Cat Regex.Eol Regex.Eps) i j <->
  Regex.at_eol s i = true /\ j = i.
Proof.
  split.
  - intros H. inversion H as [| | | | | |r1 r2 i0 mid j0 H1 H2| | | | |];
      subst.
    inversion H1; subst. inversion H2; subst. auto.
  - intros [H ->]. apply Regex.MCat with (j := i); now constructor.
Qed.

(** The end of the text, or its last character when that is a newline. *)
Lemma at_eol_split (pre post : list ascii) :
  Regex.at_eol (pre ++ post) (length pre) = true <->
  post = [] \/ post = [newline].
Proof.
  unfold Regex.at_eol.
  rewrite nth_error_app2, Nat.sub_diag, length_app by lia.
  rewrite orb_true_iff, andb_true_iff, !Nat.eqb_eq.
  destruct post as [|c [|d post]]; cbn [length nth_error].
  - split; [auto | intros _; left; lia].
  - rewrite Ascii.eqb_eq. split.
    + intros [H|[_ ->]]; [lia | auto].
    + intros [H|H]; [discriminate H|]. injection H as ->.
      right. split; [lia | reflexivity].
  - split.
    + intros [H|[H _]]; lia.
    + intros [H|H]; discriminate H.
Qed.

Lemma split_at (s : list ascii) (i : nat) :
  i <= length s ->
  s = firstn i s ++ skipn i s /\ length (firstn i s) = i.
Proof.
  intros H. split; [now rewrite firstn_skipn|].
  rewrite length_firstn. lia.
Qed.

(** A search for literal characters followed by [$]. *)
Lemma search_lits_eol (w s : list ascii) :
  Regex.search_from (lits w (Regex.Cat Regex.Eol Regex.Eps)) s = true <->
  exists stem tail,
    s = stem ++ w ++ tail /\ (tail = [] \/ tail = [newline]).
Proof.
  rewrite search_from_spec. split.
  - intros (i & j & Hi & HM). apply Matches_lits in HM.
    destruct HM as [Hw HM]. apply Matches_eol in HM. destruct HM as [He _].
    destruct (split_at s i Hi) as [Hs Hlen].
    assert (Hpost : exists post, skipn i s = w ++ post).
    { apply prefix_nth. intros m c Hm. rewrite nth_error_skipn.
      now apply Hw. }
    destruct Hpost as [post Hpost].
    exists (firstn i s), post. rewrite <- Hpost. split; [assumption|].
    rewrite Hs, Hpost, app_assoc in He.
    replace (i + length w) with (length (firstn i s ++ w)) in He
      by (rewrite length_app; lia).
    now apply at_eol_split in He.
  - intros (stem & tail & -> & Ht).
    exists (length stem), (length stem + length w). split.
    + rewrite length_app. lia.
    + apply Matches_lits. split.
      * intros m c Hm.
        rewrite nth_error_app2, Nat.add_comm, Nat.add_sub by lia.
        rewrite nth_error_app1; [assumption|].
        apply nth_error_Some. rewrite Hm. discriminate.
      * apply Matches_eol. split; [|reflexivity].
        rewrite app_assoc.
        replace (length stem + length w) with (length (stem ++ w))
          by (rewrite length_app; lia).
        now apply at_eol_split.
Qed.

Lemma re_search_lits_eol (pattern text name : string) :
  Regex.compile pattern
  = Regex.Compiled (lits (chars name) (Regex.Cat Regex.Eol Regex.Eps)) ->
  Regex.re_search pattern text
  = Some (Regex.search_from
            (lits (chars name) (Regex.Cat Regex.Eol Regex.Eps)) (chars text))
  /\ (Regex.re_search pattern text = Some true <-> EndsWith text name).
Proof.
  intros Hc. unfold Regex.re_search. rewrite Hc. split; [reflexivity|].
  unfold EndsWith. rewrite <- search_lits_eol. split; congruence.
Qed.

Lemma is_excluded_suffix (file_path : string) :
  (is_excluded file_path = Some true <->
   EndsWith file_path ".gitignore"
   \/ EndsWith file_path "README.md"
   \/ EndsWith file_path ".env")
  /\ is_excluded file_path <> None.
Proof.
  destruct (re_search_lits_eol "\.gitignore$" file_path ".gitignore" eq_refl)
    as [E1 H1].
  destruct (re_search_lits_eol "README\.md$" file_path "README.md" eq_refl)
    as [E2 H2].
  destruct (re_search_lits_eol "\.env$" file_path ".env" eq_refl)
    as [E3 H3].
  rewrite <- H1, <- H2, <- H3.
  unfold is_excluded, EXCLUSIONS. cbn [is_excluded_in].
  rewrite E1, E2, E3.
  destruct (Regex.search_from _ _); [split; [tauto | discriminate]|].
  destruct (Regex.search_from _ _); [split; [tauto | discriminate]|].
  destruct (Regex.search_from _ _); [split; [tauto | discriminate]|].
  split; [|discriminate].
  split; [discriminate|]. intros [H|[H|H]]; discriminate H.
Qed.

(** X12.  [is_excluded] says yes exactly for the paths that end with
    [.gitignore], [README.md] or [.env], the end of the path being its last
    character or a newline that is its last character. *)
Theorem is_excluded_by_suffix (file_path : string) :
  is_excluded file_path = Some true <->
  EndsWith file_path ".gitignore"
  \/ EndsWith file_path "README.md"
  \/ EndsWith file_path ".env".
Proof. apply is_excluded_suffix. Qed.

(** ** The rules of the servers *)

Lemma Matches_star_any (s : list ascii) (i j : nat) :
  Regex.Matches s (Regex.Star Regex.AnyChar) i j <->
  i <= j
  /\ forall m, i <= m < j ->
       exists c, nth_error s m = Some c /\ Ascii.eqb c newline = false.
Proof.
  split.
  - intros H. remember (Regex.Star Regex.AnyChar) as r eqn:Er.
    induction H; try discriminate; injection Er as ->.
    + split; [lia|]. intros m Hm. lia.
    + destruct (IHMatches2 eq_refl) as [Hle Hall].
      inversion H; subst. split; [lia|].
      intros m Hm. destruct (Nat.eq_dec m i) as [->|Hne]; [eauto|].
      apply Hall. lia.
  - intros [Hle Hall]. remember (j - i) as n eqn:En.
    revert i Hle Hall En. induction n as [|n IH]; intros i Hle Hall En.
    + replace j with i by lia. constructor.
    + destruct (Hall i) as (c & Hc & Hnl); [lia|].
      apply Regex.MStarS with (j := S i).
      * econstructor; eauto.
      * apply IH; [lia | | lia]. intros m Hm. apply Hall. lia.
Qed.

Lemma forallb_nth (p : ascii -> bool) (l : list ascii) :
  (forall m c, nth_error l m = Some c -> p c = true) -> forallb p l = true.
Proof.
  intros H. apply forallb_forall. intros c Hc.
  apply In_nth_error in Hc. destruct Hc as [m Hm]. eauto.
Qed.

Lemma match_server_regex (directory : string) (s : list ascii) :
  Regex.match_at_start (server_regex directory) s = true <->
  exists rest tail,
    s = chars directory ++ rest ++ tail
    /\ rest <> []
    /\ no_newline rest = true
    /\ (tail = [] \/ tail = [newline]).
Proof.
  rewrite match_at_start_spec. unfold server_regex.
  set (w := chars directory). split.
  - intros [j H].
    inversion H as [| | | | | |r1 r2 i0 mid j0 H1 H2| | | | |]; subst.
    inversion H1; subst. apply Matches_lits in H2.
    destruct H2 as [Hw H2]. cbn [plus] in H2, Hw.
    inversion H2 as [| | | | | |r1 r2 i0 k j0 Hg He| | | | |]; subst.
    apply Matches_eol in He. destruct He as [He ->].
    inversion Hg as [| | | | | | | | | | |n r i0 j0 Hb]; subst.
    inversion Hb as [| | | | | |r1 r2 i0 k' j0 Hp Heps| | | | |]; subst.
    inversion Heps; subst.
    inversion Hp as [| | | | | |r1 r2 i0 a j0 Hany Hstar| | | | |]; subst.
    inversion Hany; subst.
    apply Matches_star_any in Hstar. destruct Hstar as [Hle Hall].
    assert (Hpost : exists post, s = w ++ post)
      by (apply prefix_nth; exact Hw).
    destruct Hpost as [post ->].
    assert (Hrange : forall m, length w <= m < k ->
              exists c, nth_error (w ++ post) m = Some c
                        /\ Ascii.eqb c newline = false).
    { intros m Hm. destruct (Nat.eq_dec m (length w)) as [->|Hne]; [eauto|].
      apply Hall. lia. }
    assert (Hk : k <= length (w ++ post)).
    { destruct (Hrange (k - 1)) as (d & Hd & _); [lia|].
      assert (k - 1 < length (w ++ post))
        by (apply nth_error_Some; rewrite Hd; discriminate).
      lia. }
    rewrite length_app in Hk.
    exists (firstn (k - length w) post), (skipn (k - length w) post).
    assert (Hlen : length (firstn (k - length w) post) = k - length w)
      by (rewrite length_firstn; lia).
    repeat split.
    + now rewrite firstn_skipn.
    + intros Hnil. rewrite Hnil in Hlen. simpl in Hlen. lia.
    + apply forallb_nth. intros m d Hm.
      assert (Hmlt : m < k - length w).
      { rewrite <- Hlen. apply nth_error_Some. rewrite Hm. discriminate. }
      destruct (Hrange (length w + m)) as (d' & Hd' & Hnl); [lia|].
      rewrite nth_error_app2, Nat.add_comm, Nat.add_sub in Hd' by lia.
      rewrite nth_error_firstn in Hm.
      apply Nat.ltb_lt in Hmlt. rewrite Hmlt in Hm.
      rewrite Hm in Hd'. injection Hd' as <-. now rewrite Hnl.
    + assert (Ek : k = length (w ++ firstn (k - length w) post))
        by (rewrite length_app; lia).
      remember (firstn (k - length w) post) as rest eqn:Erest.
      remember (skipn (k - length w) post) as tail eqn:Etail.
      assert (Epost : post = rest ++ tail)
        by (subst rest tail; now rewrite firstn_skipn).
      rewrite Epost, app_assoc, Ek in He.
      now apply at_eol_split in He.
  - intros (rest & tail & -> & Hne & Hnl & Ht).
    exists (length w + length rest).
    apply Regex.MCat with (j := 0); [constructor|].
    apply Matches_lits. cbn [plus]. split.
    + intros m c Hm. rewrite nth_error_app1; [assumption|].
      apply nth_error_Some. rewrite Hm. discriminate.
    + apply Regex.MCat with (j := length w + length rest).
      * constructor.
        apply Regex.MCat with (j := length w + length rest);
          [|constructor].
        destruct rest as [|c rest]; [contradiction|].
        cbn [no_newline forallb] in Hnl.
        apply andb_true_iff in Hnl. destruct Hnl as [Hc Hrest].
        apply Regex.MCat with (j := S (length w)).
        -- apply Regex.MAny with (c := c).
           ++ now rewrite nth_error_app2, Nat.sub_diag by lia.
           ++ now apply negb_true_iff.
        -- apply Matches_star_any. cbn [length]. split; [lia|].
           intros m Hm.
           rewrite nth_error_app2 by lia.
           rewrite nth_error_app1 by (cbn [length]; lia).
           destruct (length w) as [|lw] eqn:Elw.
           ++ destruct m as [|m]; [lia|].
              rewrite Nat.sub_0_r. cbn [nth_error].
              destruct (nth_error rest m) as [d|] eqn:Ed.
              ** exists d. split; [reflexivity|].
                 apply nth_error_In in Ed.
                 rewrite forallb_forall in Hrest.
                 now apply negb_true_iff, Hrest.
              ** apply nth_error_None in Ed. lia.
           ++ destruct (m - S lw) as [|q] eqn:Eq; [lia|].
              cbn [nth_error].
              destruct (nth_error rest q) as [d|] eqn:Ed.
              ** exists d. split; [reflexivity|].
                 apply nth_error_In in Ed.
                 rewrite forallb_forall in Hrest.
                 now apply negb_true_iff, Hrest.
              ** apply nth_error_None in Ed. lia.
      * apply Matches_eol. split; [|reflexivity].
        rewrite app_assoc.
        replace (length w + length rest) with (length (w ++ rest))
          by (rewrite length_app; lia).
        now apply at_eol_split.
Qed.

Lemma re_match_server (pattern directory text : string) :
  In (pattern, directory) SERVER_DIRECTORIES ->
  Regex.re_match pattern text
  = Some (Regex.match_at_start (server_regex directory) (chars text))
  /\ (Regex.re_match pattern text = Some true <-> LiesUnder text directory).
Proof.
  intros Hin.
  assert (Hc : Regex.compile pattern
               = Regex.Compiled (server_regex directory)).
  { simpl in Hin.
    destruct Hin as [H|[H|[H|[]]]]; injection H as <- <-; reflexivity. }
  unfold Regex.re_match. rewrite Hc. split; [reflexivity|].
  unfold LiesUnder. rewrite <- match_server_regex. split; congruence.
Qed.

(** What the script computes for a rule of the table is what the table
    asks, said without wildcards or regular expressions. *)
Lemma rule_hit_table (file_path : string) (r : rule) :
  In r PATTERNS ->
  (rule_hit file_path r = true <-> TableMatches file_path r).
Proof.
  assert (Hprefix : forall name pattern,
            rule_hit file_path (name, ("prefix", pattern)) = true
            <-> TableMatches file_path (name, ("prefix", pattern))).
  { intros name pattern. unfold rule_hit, TableMatches, rule_matched.
    cbn [String.eqb Ascii.eqb Bool.eqb]. unfold test_prefix.
    rewrite starts_with_spec. split; [auto|].
    intros [[_ H]|[[H _]|[H _]]]; [assumption | discriminate..]. }
  assert (Hglob : forall name pattern,
            literal_pattern pattern = true ->
            rule_hit file_path (name, ("glob", pattern)) = true
            <-> TableMatches file_path (name, ("glob", pattern))).
  { intros name pattern Hlit. unfold rule_hit, TableMatches, rule_matched.
    cbn [String.eqb Ascii.eqb Bool.eqb]. unfold test_glob.
    rewrite (fnmatch_literal file_path pattern Hlit), String.eqb_eq.
    split; [auto|].
    intros [[H _]|[[_ H]|[H _]]]; [discriminate | assumption | discriminate]. }
  assert (Hregex : forall name pattern directory,
            In (pattern, directory) SERVER_DIRECTORIES ->
            (forall d, In (pattern, d) SERVER_DIRECTORIES -> d = directory) ->
            rule_hit file_path (name, ("regex", pattern)) = true
            <-> TableMatches file_path (name, ("regex", pattern))).
  { intros name pattern directory Hin Huniq.
    unfold rule_hit, TableMatches, rule_matched.
    cbn [String.eqb Ascii.eqb Bool.eqb]. unfold test_regex.
    destruct (re_match_server pattern directory file_path Hin) as [E Hiff].
    rewrite E in *. split.
    - intros H. right. right. split; [reflexivity|].
      exists directory. split; [assumption|]. apply Hiff. now rewrite H.
    - intros [[H _]|[[H _]|[_ (d & Hd & HL)]]]; try discriminate.
      rewrite (Huniq d Hd) in HL. apply Hiff in HL. congruence. }
  assert (Huniq : forall pattern directory d,
            In (pattern, directory) SERVER_DIRECTORIES ->
            In (pattern, d) SERVER_DIRECTORIES -> d = directory).
  { intros pattern directory d H1 H2. simpl in H1, H2.
    destruct H1 as [H1|[H1|[H1|[]]]]; injection H1 as <- <-;
      destruct H2 as [H2|[H2|[H2|[]]]]; try discriminate H2;
      now injection H2 as <-. }
  intros Hin. simpl in Hin.
  repeat (destruct Hin as [<-|Hin];
          [first
             [ apply Hprefix
             | apply Hglob; reflexivity
             | eapply Hregex;
               [simpl; eauto | intros d Hd; eapply Huniq; [|exact Hd];
                               simpl; eauto] ]|]).
  destruct Hin.
Qed.

(** C1.  A file path that ends with none of the excluded names is tested
    against every rule of the table, each on its own.  A rule reports a
    match exactly when the specification says it matches: a prefix rule,
    when the path starts with the pattern; a glob rule, when the pattern,
    read as shell wildcards, describes the whole path; a regex rule, when
    the pattern matches from the beginning of the path, wherever the match
    ends.  For the rules of the table this means: the path begins with
    [mflix/client/]; the path is the pattern of the glob rule; the path
    lies under the directory of the server rule.  The names of the matching
    rules are listed in the order of the table; the path is [matched] when
    the list is not empty and [skipped] when it is. *)
Theorem test_file_evaluates_every_rule (file_path : string) :
  (forall name,
     In name [".gitignore"; "README.md"; ".env"] ->
     ~ EndsWith file_path name) ->
  is_excluded file_path = Some false
  /\ (forall r, In r PATTERNS ->
        (rule_hit file_path r = true <-> RuleMatches file_path r))
  /\ (forall r, In r PATTERNS ->
        (rule_hit file_path r = true <-> TableMatches file_path r))
  /\ test_file file_path
     = Some (classify (map fst (filter (rule_hit file_path) PATTERNS))).
Proof.
  intros Hno.
  assert (Hex : is_excluded file_path = Some false).
  { destruct (is_excluded_suffix file_path) as [Hiff Htot].
    destruct (is_excluded file_path) as [[|]|]; [|reflexivity|congruence].
    exfalso. destruct Hiff as [Hiff _].
    destruct (Hiff eq_refl) as [H|[H|H]];
      eapply Hno; try exact H; simpl; tauto. }
  repeat split.
  - assumption.
  - now apply rule_hit_spec.
  - now apply rule_hit_spec.
  - now apply rule_hit_table.
  - now apply rule_hit_table.
  - now apply test_file_not_excluded.
Qed.

Lemma EndsWith_search (text name pattern : string) :
  Regex.compile pattern
  = Regex.Compiled (lits (chars name) (Regex.Cat Regex.Eol Regex.Eps)) ->
  Regex.re_search pattern text = Some false ->
  ~ EndsWith text name.
Proof.
  intros Hc Hs H.
  apply (re_search_lits_eol pattern text name Hc) in H. congruence.
Qed.

Lemma test_file_evaluates_every_rule_witness :
  test_file "mflix/README-JAVA-SPRING.md"
  = Some ("matched", ["mflix-java-readme"])
  /\ test_file "mflix/server/java-spring/pom.xml"
     = Some ("matched", ["java-server"])
  /\ test_file "mflix/docker-compose.yml" = Some ("skipped", []).
Proof.
  assert (Hno : forall file_path,
            Regex.re_search "\.gitignore$" file_path = Some false ->
            Regex.re_search "README\.md$" file_path = Some false ->
            Regex.re_search "\.env$" file_path = Some false ->
            forall name,
              In name [".gitignore"; "README.md"; ".env"] ->
              ~ EndsWith file_path name).
  { intros file_path H1 H2 H3 name Hin. simpl in Hin.
    destruct Hin as [<-|[<-|[<-|[]]]].
    - exact (EndsWith_search file_path ".gitignore" "\.gitignore$"
               eq_refl H1).
    - exact (EndsWith_search file_path "README.md" "README\.md$"
               eq_refl H2).
    - exact (EndsWith_search file_path ".env" "\.env$" eq_refl H3). }
  split; [|split].
  - destruct (test_file_evaluates_every_rule "mflix/README-JAVA-SPRING.md")
      as (_ & _ & _ & H);
      [apply Hno; vm_compute; reflexivity|].
    rewrite H. vm_compute. reflexivity.
  - destruct (test_file_evaluates_every_rule
                "mflix/server/java-spring/pom.xml")
      as (_ & _ & _ & H);
      [apply Hno; vm_compute; reflexivity|].
    rewrite H. vm_compute. reflexivity.
  - destruct (test_file_evaluates_every_rule "mflix/docker-compose.yml")
      as (_ & _ & _ & H);
      [apply Hno; vm_compute; reflexivity|].
    rewrite H. vm_compute. reflexivity.
Defined.

(** X13.  A server rule of the table matches a path exactly when the path
    is the directory of the rule followed by at least one character, none
    of them a newline, a single newline being allowed as the very last
    character of the path. *)
Theorem server_rules_match_under_directory
  (pattern directory file_path : string) :
  In (pattern, directory) SERVER_DIRECTORIES ->
  (exists name, In (name, ("regex", pattern)) PATTERNS)
  /\ (test_regex file_path pattern = Some true
      <-> LiesUnder file_path directory).
Proof.
  intros Hin. split.
  - simpl in Hin.
    destruct Hin as [H|[H|[H|[]]]]; injection H as <- <-;
      eexists; simpl; eauto 12.
  - apply (re_match_server pattern directory file_path Hin).
Qed.

Lemma server_rules_match_under_directory_witness :
  LiesUnder "mflix/server/js-express/src/index.js" "mflix/server/js-express/".
Proof.
  destruct (server_rules_match_under_directory
              "^mflix/server/js-express/(?P<file>.+)$"
              "mflix/server/js-express/"
              "mflix/server/js-express/src/index.js") as [_ H].
  - simpl. tauto.
  - apply H. vm_compute. reflexivity.
Defined.

(** ** Rules that match the same path *)

Lemma leading_lits_prefix (s : list ascii) (r : Regex.regex) :
  forall i j,
    Regex.Matches s r i j ->
    forall m x,
      nth_error (leading_lits r) m = Some x -> nth_error s (i + m) = Some x.
Proof.
  induction r as [| | | | | |r1 _ r2 IH2| | |]; intros i j HM m x Hm;
    try (destruct m; discriminate Hm).
  destruct r1; try (destruct m; discriminate Hm).
  inversion HM as [| | | | | |a b i0 mid j0 H1 H2| | | | |]; subst.
  inversion H1; subst. cbn [leading_lits] in Hm.
  destruct m as [|m].
  - rewrite Nat.add_0_r. simpl in Hm. congruence.
  - rewrite <- Nat.add_succ_comm. eapply IH2; eauto.
Qed.

Lemma glob_lits_prefix (ts : list Glob.token) :
  forall s,
    Glob.glob_match ts s = true -> starts_with s (glob_lits ts) = true.
Proof.
  induction ts as [|t ts IH]; intros s H; [now destruct s|].
  destruct t; try now destruct s.
  destruct s as [|d s]; [discriminate H|].
  simpl in H. apply andb_true_iff in H. destruct H as [Hc H].
  cbn [glob_lits starts_with]. now rewrite Hc, IH.
Qed.

(** A path that a rule matches starts with the literal characters the
    pattern of the rule starts with. *)
Lemma rule_matched_prefix (file_path pattern_type pattern : string) :
  rule_matched file_path pattern_type pattern = Some true ->
  starts_with (chars file_path) (literal_prefix pattern_type pattern) = true.
Proof.
  unfold rule_matched, literal_prefix.
  destruct (String.eqb pattern_type "prefix").
  - unfold test_prefix. congruence.
  - destruct (String.eqb pattern_type "regex").
    + unfold test_regex. intros H. apply re_match_spec in H.
      destruct H as (re & j & -> & HM).
      destruct re as [| | | | | |r1 r2| | |]; try now destruct (chars file_path).
      destruct r1; try now destruct (chars file_path).
      inversion HM as [| | | | | |a b i0 mid j0 H1 H2| | | | |]; subst.
      inversion H1; subst.
      apply starts_with_spec, prefix_nth.
      intros m c Hm. exact (leading_lits_prefix _ _ _ _ H2 m c Hm).
    + destruct (String.eqb pattern_type "glob").
      * unfold test_glob, Glob.fnmatch.
        destruct (Glob.parse pattern) as [ts|]; [|discriminate].
        intros H. injection H as H. now apply glob_lits_prefix.
      * discriminate.
Qed.

Lemma prefixes_comparable (s : list ascii) :
  forall p q,
    starts_with s p = true -> starts_with s q = true ->
    starts_with p q = true \/ starts_with q p = true.
Proof.
  induction s as [|d s IH]; intros p q Hp Hq.
  - destruct p; [|discriminate Hp]. right. now destruct q.
  - destruct p as [|a p]; [right; now destruct q|].
    destruct q as [|b q]; [left; reflexivity|].
    cbn [starts_with] in *.
    apply andb_true_iff in Hp, Hq. destruct Hp as [Ha Hp], Hq as [Hb Hq].
    apply Ascii.eqb_eq in Ha, Hb. subst a b.
    rewrite Ascii.eqb_refl. cbn [andb]. now apply IH.
Qed.

Lemma PATTERNS_apart :
  forallb (fun r1 => forallb (same_or_apart r1) PATTERNS) PATTERNS = true.
Proof. vm_compute. reflexivity. Qed.

(** X15.  Two rules of the table match the same path only when they have
    the same pattern type and the same pattern: apart from the three client
    rules, which share one prefix, no path is matched by two rules. *)
Theorem rules_matching_a_path_agree
  (file_path name1 type1 pattern1 name2 type2 pattern2 : string) :
  In (name1, (type1, pattern1)) PATTERNS ->
  In (name2, (type2, pattern2)) PATTERNS ->
  rule_matched file_path type1 pattern1 = Some true ->
  rule_matched file_path type2 pattern2 = Some true ->
  type1 = type2 /\ pattern1 = pattern2.
Proof.
  intros H1 H2 M1 M2.
  pose proof PATTERNS_apart as Hall.
  rewrite forallb_forall in Hall. specialize (Hall _ H1).
  rewrite forallb_forall in Hall. specialize (Hall _ H2).
  unfold same_or_apart in Hall. cbn [fst snd] in Hall.
  apply orb_true_iff in Hall. destruct Hall as [Hsame|Hapart].
  - apply andb_true_iff in Hsame. destruct Hsame as [Ht Hp].
    apply String.eqb_eq in Ht, Hp. auto.
  - exfalso. apply andb_true_iff in Hapart. destruct Hapart as [Ha Hb].
    apply negb_true_iff in Ha, Hb.
    destruct (prefixes_comparable _ _ _
                (rule_matched_prefix _ _ _ M1)
                (rule_matched_prefix _ _ _ M2)); congruence.
Qed.

Lemma rules_matching_a_path_agree_witness :
  "prefix" = "prefix" /\ "mflix/client/" = "mflix/client/".
Proof.
  apply (rules_matching_a_path_agree "mflix/client/src/App.tsx"
           "mflix-client-to-java" "prefix" "mflix/client/"
           "mflix-client-to-python" "prefix" "mflix/client/").
  - simpl. tauto.
  - simpl. tauto.
  - vm_compute. reflexivity.
  - vm_compute. reflexivity.
Defined.

End PatternShapes.
